(** * nycdemo: the CSV -> parquet converter and the monthly merger

    Shallow embedding of the two functions of [merge_data_with_dask.ipynb]:

      - [convert_to_parquet directory_from directory_to]
      - [merge_monthly_trips year directory]

    Python strings are modelled as [string] (byte strings: the order of
    UTF-8 encodings is the order of code points, so [String.leb] is
    Python's [<=] on [str]).  The file system, pandas, dask and pyarrow
    are services the notebook calls; the part of their behaviour the two
    functions depend on is modelled in [Module Os] and [Module Frame]. *)

From Stdlib Require Import ZArith DecimalString Ascii.
From stdpp Require Import gmap strings list fin_maps sorting.

(** ** Python string primitives used by the notebook *)

Module Py.

(** [str(n)] for an [int]. *)
Definition str (n : Z) : string := NilZero.string_of_int (Z.to_int n).

(** [s.endswith(suffix)] *)
Fixpoint endswith (s suffix : string) : bool :=
  String.eqb s suffix ||
  match s with
  | EmptyString => false
  | String _ s' => endswith s' suffix
  end.

(** [s.split("/")] *)
Fixpoint split_slash (s : string) : list string :=
  match s with
  | EmptyString => [EmptyString]
  | String c s' =>
      if Ascii.eqb c "/" then EmptyString :: split_slash s'
      else match split_slash s' with
           | w :: ws => String c w :: ws
           | [] => [String c EmptyString]
           end
  end.

(** [xs[-1]] on the (never empty) result of [split]. *)
Definition last_item (xs : list string) : string := List.last xs EmptyString.

(** [s[:-4]] *)
Definition drop_last4 (s : string) : string :=
  String.substring 0 (String.length s - 4) s.

(** [c.lower()] on an ASCII letter. *)
Definition lower_ascii (c : ascii) : ascii :=
  let n := nat_of_ascii c in
  if (65 <=? n)%nat && (n <=? 90)%nat then ascii_of_nat (n + 32) else c.

(** [s.lower()] *)
Fixpoint lower (s : string) : string :=
  match s with
  | EmptyString => EmptyString
  | String c s' => String (lower_ascii c) (lower s')
  end.

(** [s.replace(" ", "")] *)
Fixpoint remove_spaces (s : string) : string :=
  match s with
  | EmptyString => EmptyString
  | String c s' =>
      if Ascii.eqb c " " then remove_spaces s' else String c (remove_spaces s')
  end.

(** [re.sub(r"\\N", "0", s)]: the pattern is a backslash followed by
    [N]; every occurrence, scanning from the left, becomes ["0"]. *)
Fixpoint sub_backslash_N (s : string) : string :=
  match s with
  | EmptyString => EmptyString
  | String c s' =>
      match s' with
      | String c' s'' =>
          if Ascii.eqb c "\" && Ascii.eqb c' "N"
          then String "0" (sub_backslash_N s'')
          else String c (sub_backslash_N s')
      | EmptyString => String c EmptyString
      end
  end.

(** [sorted(xs)] on a list of [str]. *)
Definition sorted (xs : list string) : list string := merge_sort String.le xs.

(** Truth value of the [year] argument: [None] and [0] are false. *)
Definition truthy (year : option Z) : option Z :=
  match year with
  | Some y => if Z.eqb y 0 then None else Some y
  | None => None
  end.

End Py.

(** ** Tables *)

Module Frame.

(** A cell: an integer, a text, or a missing value (NaN / None). *)
Inductive value :=
| VInt (z : Z)
| VStr (s : string)
| VNull.

#[global] Instance value_eq_dec : EqDecision value.
Proof. solve_decision. Defined.

Definition is_str (v : value) : bool :=
  match v with VStr _ => true | _ => false end.

Definition is_null (v : value) : bool :=
  match v with VNull => true | _ => false end.

(** A pandas / dask data frame: the header and the rows, in order. *)
Record DataFrame := mkDataFrame {
  columns : list string;
  rows : list (list value)
}.

#[global] Instance DataFrame_eq_dec : EqDecision DataFrame.
Proof. solve_decision. Defined.

(** Every row has one cell per column. *)
Definition wf (df : DataFrame) : Prop :=
  Forall (λ r, length r = length (columns df)) (rows df).

#[global] Instance wf_dec (df : DataFrame) : Decision (wf df).
Proof. unfold wf. apply _. Defined.

(** Exceptions the notebook can meet. *)
Inductive exn :=
| KeyError
| ValueError
| FileNotFoundError
| ParserError
| ArrowError.

Inductive result (A : Type) :=
| Ok (a : A)
| Raise (e : exn).
Arguments Ok {A} a.
Arguments Raise {A} e.

#[global] Instance result_ret : MRet result := λ A a, Ok a.
#[global] Instance result_bind : MBind result := λ A B k m,
  match m with
  | Ok a => k a
  | Raise e => Raise e
  end.

(** [df.columns = [g(col) for col in df.columns]] *)
Definition rename_columns (g : string → string) (df : DataFrame) : DataFrame :=
  mkDataFrame (g <$> columns df) (rows df).

(** [df.dropna(inplace=True)]: a row with a missing cell is removed. *)
Definition dropna (df : DataFrame) : DataFrame :=
  mkDataFrame (columns df) (filter (λ r, negb (existsb is_null r)) (rows df)).

(** One row of [df[c] = g(df[c])]: [g] on the cells under the name [c]. *)
Fixpoint map_named (c : string) (g : value → value)
    (cols : list string) (r : list value) : list value :=
  match cols, r with
  | n :: cols', v :: r' =>
      (if decide (n = c) then g v else v) :: map_named c g cols' r'
  | _, _ => r
  end.

(** [df[c] = g(df[c])]; [df[c]] raises [KeyError] without such a column. *)
Definition update_column (c : string) (g : value → value)
    (df : DataFrame) : result DataFrame :=
  if decide (c ∈ columns df)
  then Ok (mkDataFrame (columns df) (map_named c g (columns df) <$> rows df))
  else Raise KeyError.

(** [series.replace(r"\\N", "0", regex=True)] on one cell: only text
    cells are rewritten. *)
Definition replace_marker (v : value) : value :=
  match v with
  | VStr s => VStr (Py.sub_backslash_N s)
  | _ => v
  end.

(** [series.astype("str")] on one cell. *)
Definition astype_str (v : value) : value :=
  match v with
  | VInt z => VStr (Py.str z)
  | VStr s => VStr s
  | VNull => VStr "nan"
  end.

(** The cell of row [r] under the column name [c]; missing when the
    frame has no such column. *)
Fixpoint cell (c : string) (cols : list string) (r : list value) : value :=
  match cols, r with
  | n :: cols', v :: r' => if decide (n = c) then v else cell c cols' r'
  | _, _ => VNull
  end.

(** A row of a frame with header [cols], laid out under [out]. *)
Definition reindex (out cols : list string) (r : list value) : list value :=
  (λ c, cell c cols r) <$> out.

(** Union of headers, in order of first appearance. *)
Definition union_columns (dfs : list DataFrame) : list string :=
  foldl (λ acc c, if decide (c ∈ acc) then acc else acc ++ [c])
        [] (mjoin (columns <$> dfs)).

(** [dd.concat(dfs)]: row-wise concatenation (outer join on the
    columns); dask raises [ValueError] ("No objects to concatenate")
    on an empty list.  For a single frame dask returns the frame
    itself, which is the table below when its column names are distinct
    and its rows full. *)
Definition dd_concat (dfs : list DataFrame) : result DataFrame :=
  match dfs with
  | [] => Raise ValueError
  | _ =>
      let cols := union_columns dfs in
      Ok (mkDataFrame cols
            (mjoin ((λ df, reindex cols (columns df) <$> rows df) <$> dfs)))
  end.

(** On-disk (arrow) column types. *)
Inductive pa_type := pa_int64 | pa_string | pa_null.

#[global] Instance pa_type_eq_dec : EqDecision pa_type.
Proof. solve_decision. Defined.

Definition fits (t : pa_type) (v : value) : bool :=
  match v, t with
  | VNull, _ => true
  | VInt _, pa_int64 => true
  | VStr _, pa_string => true
  | _, _ => false
  end.

(** Type inferred by pyarrow for a column: all cells of one kind,
    missing cells apart; a column mixing numbers and text is refused. *)
Definition infer_type (cells : list value) : result pa_type :=
  if forallb (fits pa_null) cells then Ok pa_null
  else if forallb (fits pa_int64) cells then Ok pa_int64
  else if forallb (fits pa_string) cells then Ok pa_string
  else Raise ArrowError.

(** Type of the column [c] on disk: the pinned one when the [schema]
    argument names the column, the inferred one otherwise. *)
Definition column_type (schema : list (string * pa_type))
    (df : DataFrame) (c : string) : result (string * pa_type) :=
  let cells := (λ r, cell c (columns df) r) <$> rows df in
  match list_find (λ kt, kt.1 = c) schema with
  | Some (_, (_, t)) =>
      if forallb (fits t) cells then Ok (c, t) else Raise ArrowError
  | None => t ← infer_type cells; Ok (c, t)
  end.

Fixpoint column_types (schema : list (string * pa_type))
    (df : DataFrame) (cs : list string) : result (list (string * pa_type)) :=
  match cs with
  | [] => Ok []
  | c :: cs' =>
      ct ← column_type schema df c;
      cts ← column_types schema df cs';
      Ok (ct :: cts)
  end.

(** Schema of the parquet file written for [df]; parquet has no
    duplicate column names. *)
Definition arrow_schema (schema : list (string * pa_type))
    (df : DataFrame) : result (list (string * pa_type)) :=
  if decide (NoDup (columns df))
  then column_types schema df (columns df)
  else Raise ValueError.

End Frame.

Export Frame.

(** ** The file system *)

Module Os.

(** A directory entry: a delimited-text file, holding the frame
    [pd.read_csv] parses from it, or a parquet file (or dask parquet
    dataset) with its table and on-disk schema. *)
Inductive file :=
| CsvFile (df : DataFrame)
| ParquetFile (df : DataFrame) (schema : list (string * pa_type)).

#[global] Instance file_eq_dec : EqDecision file.
Proof. solve_decision. Defined.

Definition table_of (f : file) : DataFrame :=
  match f with
  | CsvFile df => df
  | ParquetFile df _ => df
  end.

(** The store maps the path of an entry to its content.  Directories
    are one level deep: the entries of [d] are the paths [d/name]. *)
Abbreviation store := (gmap string file).

Fixpoint strip_prefix (pre s : string) : option string :=
  match pre with
  | EmptyString => Some s
  | String c pre' =>
      match s with
      | String c' s' => if Ascii.eqb c c' then strip_prefix pre' s' else None
      | EmptyString => None
      end
  end.

Fixpoint has_slash (s : string) : bool :=
  match s with
  | EmptyString => false
  | String c s' => Ascii.eqb c "/" || has_slash s'
  end.

(** The directory as a path prefix: [os.listdir] accepts the name with
    or without the final separator. *)
Definition with_sep (directory : string) : string :=
  if Py.endswith directory "/" then directory else directory +:+ "/".

Definition entry_name (dir path : string) : option string :=
  name ← strip_prefix dir path;
  if bool_decide (name = EmptyString) || has_slash name then None else Some name.

(** [os.listdir(directory)]: the names of the entries, in no
    particular order. *)
Definition listdir (fs : store) (directory : string) : list string :=
  omap (entry_name (with_sep directory)) (elements (dom fs)).

(** [os.path.exists(path)] *)
Definition path_exists (fs : store) (path : string) : bool :=
  bool_decide (is_Some (fs !! path)).

(** [pd.read_csv(path)] *)
Definition read_csv (fs : store) (path : string) : result DataFrame :=
  match fs !! path with
  | Some (CsvFile df) => Ok df
  | Some (ParquetFile _ _) => Raise ParserError
  | None => Raise FileNotFoundError
  end.

(** [dd.read_parquet(path)] *)
Definition read_parquet (fs : store) (path : string) : result DataFrame :=
  match fs !! path with
  | Some (ParquetFile df _) => Ok df
  | Some (CsvFile _) => Raise ArrowError
  | None => Raise FileNotFoundError
  end.

(** [df.to_parquet(path, schema=schema)]: the file to be stored. *)
Definition to_parquet (schema : list (string * pa_type))
    (df : DataFrame) : result file :=
  sch ← arrow_schema schema df; Ok (ParquetFile df sch).

End Os.

Export Os.

(** ** The notebook *)

Definition PARQUET_EXTENSION : string := ".parquet".

(** *** [convert_to_parquet] *)

(** The frame written for one csv file: header normalised, rows with a
    missing value dropped, the marker in [birthyear] replaced. *)
Definition clean_csv (csv_df : DataFrame) : result DataFrame :=
  let csv_df := rename_columns (λ col, Py.remove_spaces (Py.lower col)) csv_df in
  let csv_df := dropna csv_df in
  update_column "birthyear" replace_marker csv_df.

(** [csv_file.split("/")[-1][:-4]] *)
Definition parquet_name (csv_file : string) : string :=
  Py.drop_last4 (Py.last_item (Py.split_slash csv_file)).

(** The body of the [for csv_file in csv_files] loop, threading the
    store; an exception stops the loop and keeps what was written. *)
Fixpoint convert_files (directory_to : string) (csv_files : list string)
    (fs : store) : store * result unit :=
  match csv_files with
  | [] => (fs, Ok tt)
  | csv_file :: csv_files' =>
      let filename := parquet_name csv_file in
      let newfilepath := (directory_to +:+ filename) +:+ ".parquet" in
      match csv_df ← read_csv fs csv_file;
            csv_df ← clean_csv csv_df;
            to_parquet [] csv_df with
      | Ok file => convert_files directory_to csv_files' (<[newfilepath := file]> fs)
      | Raise e => (fs, Raise e)
      end
  end.

Definition convert_to_parquet (directory_from directory_to : string)
    (fs : store) : store * result unit :=
  let csv_files :=
    Py.sorted ((λ f, directory_from +:+ f) <$> listdir fs directory_from) in
  convert_files directory_to csv_files fs.

(** *** [merge_monthly_trips] *)

(** [range_start <= f <= range_end] *)
Definition in_range (range_start range_end f : string) : bool :=
  String.leb range_start f && String.leb f range_end.

(** The list [month_files] built by the [if year: ... else: ...]. *)
Definition month_files (year : option Z) (directory : string)
    (fs : store) : list string :=
  match Py.truthy year with
  | Some y =>
      let range_start := Py.str y +:+ "-01" in
      let range_end := Py.str y +:+ "-13" in
      Py.sorted ((λ f, directory +:+ f) <$>
                 filter (λ f, in_range range_start range_end f) (listdir fs directory))
  | None =>
      Py.sorted ((λ f, directory +:+ f) <$>
                 filter (λ f, Py.endswith f PARQUET_EXTENSION) (listdir fs directory))
  end.

(** The [for month_file in month_files] loop: the list [parquet_ddfs]. *)
Fixpoint read_month_files (fs : store) (files : list string)
    : result (list DataFrame) :=
  match files with
  | [] => Ok []
  | month_file :: files' =>
      if path_exists fs month_file then
        ddf ← read_parquet fs month_file;
        ddf ← update_column "birthyear" astype_str ddf;
        parquet_ddfs ← read_month_files fs files';
        Ok (ddf :: parquet_ddfs)
      else read_month_files fs files'
  end.

(** [str(year) if year else "alltrips"] *)
Definition merged_name (year : option Z) : string :=
  match Py.truthy year with
  | Some y => Py.str y
  | None => "alltrips"
  end.

Definition merge_monthly_trips (year : option Z) (directory : string)
    (fs : store) : result store :=
  parquet_ddfs ← read_month_files fs (month_files year directory fs);
  all_trips ← dd_concat parquet_ddfs;
  let filename := merged_name year in
  file ← to_parquet [("birthyear", pa_string)] all_trips;
  Ok (<[(directory +:+ filename) +:+ PARQUET_EXTENSION := file]> fs).

(** ** Vocabulary of the statements *)

(** The twelve monthly files of 2019. *)
Definition months_2019 : list string :=
  ["2019-01.parquet"; "2019-02.parquet"; "2019-03.parquet"; "2019-04.parquet";
   "2019-05.parquet"; "2019-06.parquet"; "2019-07.parquet"; "2019-08.parquet";
   "2019-09.parquet"; "2019-10.parquet"; "2019-11.parquet"; "2019-12.parquet"].

(** The name [f] carries the year token of [y]: it starts with
    [str(y) + "-"]. *)
Definition of_year (y : Z) (f : string) : bool :=
  bool_decide (is_Some (strip_prefix (Py.str y +:+ "-") f)).

(** [ddf["birthyear"] = ddf["birthyear"].astype("str")] on a frame that
    has the column. *)
Definition cast_birthyear (ddf : DataFrame) : DataFrame :=
  mkDataFrame (columns ddf)
    (map_named "birthyear" astype_str (columns ddf) <$> rows ddf).

(** The tables stored under the paths [files], in the order of [files];
    paths that do not exist contribute nothing. *)
Definition stored_tables (fs : store) (files : list string) : list DataFrame :=
  omap (λ p, match fs !! p with
             | Some (ParquetFile df _) => Some df
             | _ => None
             end) files.

(** Every cell of the column [c] is a text. *)
Definition textual (c : string) (df : DataFrame) : Prop :=
  c ∈ columns df ∧ ∀ r, r ∈ rows df → is_str (cell c (columns df) r) = true.

(** Every table of the store has one cell per column in every row. *)
Definition store_wf (fs : store) : Prop :=
  map_Forall (λ _ file, wf (table_of file)) fs.

(** The path the merger writes to. *)
Definition merged_path (year : option Z) (directory : string) : string :=
  (directory +:+ merged_name year) +:+ PARQUET_EXTENSION.

(** The row written for the row [r] of the csv frame: the marker
    replaced in the cells under [birthyear]. *)
Definition converted_row (cols : list string) (r : list value) : list value :=
  map_named "birthyear" replace_marker cols r.

(** The path [newfilepath] the converter writes for [csv_file]. *)
Definition parquet_path (directory_to csv_file : string) : string :=
  (directory_to +:+ parquet_name csv_file) +:+ ".parquet".

(** The path [p] holds a parquet file. *)
Definition is_parquet (fs : store) (p : string) : Prop :=
  ∃ df sch, fs !! p = Some (ParquetFile df sch).

(** The number of rows of the tables [dfs], all together. *)
Definition row_count (dfs : list DataFrame) : nat :=
  sum_list (length ∘ rows <$> dfs).

(** What the loop of the converter does with one csv file: the parquet
    file it is about to store. *)
Definition convert_one (fs : store) (csv_file : string) : result file :=
  csv_df ← read_csv fs csv_file;
  csv_df ← clean_csv csv_df;
  to_parquet [] csv_df.

(** The test of the comprehension that builds [month_files]: the range
    test with a year, the extension test without. *)
Definition selects (year : option Z) (f : string) : bool :=
  match Py.truthy year with
  | Some y => in_range (Py.str y +:+ "-01") (Py.str y +:+ "-13") f
  | None => Py.endswith f PARQUET_EXTENSION
  end.

(** What the converter writes: a table with a [birthyear] column,
    distinct column names and no missing cell, under a schema that names
    its columns. *)
Definition converted_file (f : file) : Prop :=
  ∃ out sch,
    f = ParquetFile out sch ∧ "birthyear" ∈ columns out ∧
    NoDup (columns out) ∧ Forall (Forall (λ v, v ≠ VNull)) (rows out) ∧
    sch.*1 = columns out.

(** ** Running the notebook on small stores *)

Module Demo.

Definition jan : DataFrame :=
  mkDataFrame ["tripduration"; "birthyear"]
    [[VInt 320; VInt 1985]; [VInt 100; VInt 1990]].
Definition feb : DataFrame :=
  mkDataFrame ["tripduration"; "birthyear"]
    [[VInt 75; VStr "0"]; [VInt 610; VStr "1969"]].

(** January stores [birthyear] as a number, February as a text. *)
Definition jan_file : file :=
  ParquetFile jan [("tripduration", pa_int64); ("birthyear", pa_int64)].
Definition feb_file : file :=
  ParquetFile feb [("tripduration", pa_int64); ("birthyear", pa_string)].

Definition year_dir : store :=
  list_to_map
    [("data/2019_parquet/2019-02.parquet", feb_file);
     ("data/2019_parquet/2019-01.parquet", jan_file);
     ("data/2019_parquet/2018-12.parquet", feb_file);
     ("data/2019_parquet/2019-05.csv", CsvFile feb);
     ("data/2019_parquet/2019-13", feb_file);
     ("data/2020-01.parquet", jan_file)].

(** A year directory: the twelve months of 2019, the neighbouring
    months and an earlier merge output. *)
Definition months_dir : store :=
  list_to_map
    ((λ f, ("data/2019_parquet/" +:+ f, feb_file)) <$>
     (["2020-01.parquet"; "2019.parquet"] ++ reverse months_2019
      ++ ["2018-12.parquet"])).

(** Two months with the two storages of [birthyear]. *)
Definition two_months : store :=
  list_to_map
    [("trips/2019-02.parquet", feb_file);
     ("trips/2019-01.parquet", jan_file)].

(** The stores after the notebook's merges, as the code computes them. *)
Definition after (r : result store) : store :=
  match r with
  | Ok fs => fs
  | Raise _ => ∅
  end.

Definition two_months_2019 : store :=
  after (merge_monthly_trips (Some 2019%Z) "trips/" two_months).

Definition two_months_all : store :=
  after (merge_monthly_trips None "trips/" two_months).

Definition two_months_all_twice : store :=
  after (merge_monthly_trips None "trips/" two_months_all).

(** Two monthly csv files as [pd.read_csv] parses them; the second
    has a row without birth year and a row with a missing station. *)
Definition jan_csv : DataFrame :=
  mkDataFrame ["tripduration"; "end station id"; "Birth Year"]
    [[VInt 320; VInt 3160; VInt 1985]; [VInt 100; VInt 519; VInt 1990]].
Definition feb_csv : DataFrame :=
  mkDataFrame ["tripduration"; "end station id"; "Birth Year"]
    [[VInt 75; VInt 497; VStr "\N"]; [VInt 88; VNull; VStr "1971"];
     [VInt 610; VInt 3255; VStr "1969"]].

Definition csv_dir : store :=
  list_to_map
    [("data/2019_csv/2019-02.csv", CsvFile feb_csv);
     ("data/2019_csv/2019-01.csv", CsvFile jan_csv)].

Definition csv_dir_converted : store :=
  (convert_to_parquet "data/2019_csv/" "data/2019_parquet/" csv_dir).1.

(** A csv file whose name has no extension. *)
Definition plain_name : store :=
  list_to_map [("csv/trips", CsvFile jan_csv)].

Definition plain_name_converted : store :=
  (convert_to_parquet "csv/" "pq/" plain_name).1.

(** The second of three csv files has no birth year column. *)
Definition broken_dir : store :=
  list_to_map
    [("csv/2019-03.csv", CsvFile feb_csv);
     ("csv/2019-02.csv",
      CsvFile (mkDataFrame ["tripduration"] [[VInt 12]]));
     ("csv/2019-01.csv", CsvFile jan_csv)].

Definition broken_dir_converted : store :=
  (convert_to_parquet "csv/" "pq/" broken_dir).1.

End Demo.

(** ** Facts about strings *)

Section strings.
Implicit Types s t p : string.

Lemma ascii_compare_refl (c : ascii) : Ascii.compare c c = Eq.
Proof. unfold Ascii.compare. apply N.compare_refl. Qed.

Lemma app_cons_str c s t : String c s +:+ t = String c (s +:+ t).
Proof. reflexivity. Qed.

Lemma app_nil_l_str s : EmptyString +:+ s = s.
Proof. reflexivity. Qed.

Lemma compare_app_l p s t :
  String.compare (p +:+ s) (p +:+ t) = String.compare s t.
Proof.
  induction p as [|c p IH]; [done|].
  rewrite !app_cons_str. cbn. by rewrite ascii_compare_refl.
Qed.

Lemma leb_app_l p s t : String.leb (p +:+ s) (p +:+ t) = String.leb s t.
Proof. unfold String.leb. by rewrite compare_app_l. Qed.

Lemma le_app_l p s t : String.le (p +:+ s) (p +:+ t) ↔ String.le s t.
Proof. unfold String.le. by rewrite leb_app_l. Qed.

(** A name between two names that share a prefix has that prefix. *)
Lemma between_common_prefix p a b f :
  String.leb (p +:+ a) f = true → String.leb f (p +:+ b) = true →
  ∃ r, f = p +:+ r ∧ String.leb a r = true ∧ String.leb r b = true.
Proof.
  revert f. induction p as [|c p IH]; intros f Hlo Hhi.
  { exists f. done. }
  rewrite app_cons_str in Hlo, Hhi.
  destruct f as [|x f]; [done|].
  unfold String.leb in Hlo, Hhi. cbn in Hlo, Hhi.
  destruct (Ascii.compare c x) eqn:Hcx.
  - apply Ascii.compare_eq_iff in Hcx as <-.
    rewrite ascii_compare_refl in Hhi.
    destruct (IH f) as (r & -> & ? & ?); [done..|].
    by exists r.
  - rewrite Ascii.compare_antisym, Hcx in Hhi. done.
  - done.
Qed.

Lemma strip_prefix_Some p s r : strip_prefix p s = Some r ↔ s = p +:+ r.
Proof.
  revert s. induction p as [|c p IH]; intros s; cbn.
  { rewrite app_nil_l_str. split; congruence. }
  rewrite app_cons_str.
  destruct s as [|c' s]; [done|].
  destruct (Ascii.eqb_spec c c') as [->|Hne].
  - rewrite IH. split; congruence.
  - split; congruence.
Qed.

Lemma endswith_spec s suffix :
  Py.endswith s suffix = true ↔ ∃ p, s = p +:+ suffix.
Proof.
  induction s as [|c s IH].
  - unfold Py.endswith. rewrite orb_false_r. split.
    + intros ->%String.eqb_eq. by exists EmptyString.
    + intros [p H]. apply String.eqb_eq. by destruct p.
  - change (Py.endswith (String c s) suffix)
      with (String.eqb (String c s) suffix || Py.endswith s suffix).
    rewrite orb_true_iff, IH. split.
    + intros [->%String.eqb_eq|[p ->]];
        [by exists EmptyString|by exists (String c p)].
    + intros [[|c' p] H]; [left; by apply String.eqb_eq|].
      rewrite app_cons_str in H. injection H as -> ->. right. by exists p.
Qed.

Lemma has_slash_app s t : has_slash (s +:+ t) = has_slash s || has_slash t.
Proof.
  induction s as [|c s IH]; [done|].
  rewrite app_cons_str. cbn. by rewrite IH, orb_assoc.
Qed.

Lemma app_assoc_str s t u : (s +:+ t) +:+ u = s +:+ (t +:+ u).
Proof. induction s as [|c s IH]; [done|]. rewrite !app_cons_str. by rewrite IH. Qed.

Lemma app_nil_r_str s : s +:+ EmptyString = s.
Proof. induction s as [|c s IH]; [done|]. rewrite app_cons_str. by rewrite IH. Qed.

Lemma length_app_str s t :
  String.length (s +:+ t) = String.length s + String.length t.
Proof. induction s as [|c s IH]; [done|]. rewrite app_cons_str. cbn. by rewrite IH. Qed.

Lemma substring_app_l s t :
  String.substring 0 (String.length s) (s +:+ t) = s.
Proof.
  induction s as [|c s IH]; [by destruct t|].
  rewrite app_cons_str. cbn. by rewrite IH.
Qed.

(** [(b + ext)[:-4] = b] for a four-character extension. *)
Lemma drop_last4_ext b ext :
  String.length ext = 4 → Py.drop_last4 (b +:+ ext) = b.
Proof.
  intros Hext. unfold Py.drop_last4.
  rewrite length_app_str, Hext.
  replace (String.length b + 4 - 4) with (String.length b) by lia.
  apply substring_app_l.
Qed.

Lemma split_slash_no_slash s : has_slash s = false → Py.split_slash s = [s].
Proof.
  induction s as [|c s IH]; cbn; [done|].
  intros [Hc Hs]%orb_false_iff. rewrite Hc, IH; done.
Qed.

Lemma split_slash_nonempty s : Py.split_slash s ≠ [].
Proof.
  destruct s as [|c s]; cbn; [done|].
  destruct (Ascii.eqb c "/"); [done|]. by destruct (Py.split_slash s).
Qed.

Lemma split_slash_app s t :
  Py.split_slash ((s +:+ "/") +:+ t) = Py.split_slash s ++ Py.split_slash t.
Proof.
  induction s as [|c s IH]; [done|].
  rewrite !app_cons_str. cbn.
  destruct (Ascii.eqb c "/"); [by rewrite IH|].
  rewrite IH.
  pose proof (split_slash_nonempty s). by destruct (Py.split_slash s).
Qed.

(** The last component of [directory + f], for a directory written
    with its final separator and a plain name [f]. *)
Lemma last_item_split directory f :
  Py.endswith directory "/" = true → has_slash f = false →
  Py.last_item (Py.split_slash (directory +:+ f)) = f.
Proof.
  intros [d ->]%endswith_spec Hf.
  rewrite split_slash_app, (split_slash_no_slash f Hf).
  unfold Py.last_item. by rewrite last_last.
Qed.

End strings.

(** ** Facts about listings and sorting *)

Section listing.
Implicit Types (fs : store) (f p directory : string).

Lemma with_sep_id directory :
  Py.endswith directory "/" = true → with_sep directory = directory.
Proof. unfold with_sep. by intros ->. Qed.

Lemma elem_of_listdir fs directory f :
  f ∈ listdir fs directory ↔
  f ≠ EmptyString ∧ has_slash f = false ∧
  is_Some (fs !! (with_sep directory +:+ f)).
Proof.
  unfold listdir. rewrite list_elem_of_omap. split.
  - intros (path & Hin & Hname).
    apply elem_of_elements, elem_of_dom in Hin.
    unfold entry_name in Hname.
    destruct (strip_prefix _ path) as [name|] eqn:Hstrip; [|done].
    apply strip_prefix_Some in Hstrip as ->. cbn in Hname.
    case_bool_decide as Hne; [done|].
    destruct (has_slash name) eqn:Hsl; [done|]. cbn in Hname.
    by injection Hname as <-.
  - intros (Hne & Hsl & Hin).
    exists (with_sep directory +:+ f). split.
    + by apply elem_of_elements, elem_of_dom.
    + unfold entry_name.
      rewrite (proj2 (strip_prefix_Some _ _ f) eq_refl). cbn.
      rewrite Hsl. by rewrite bool_decide_false.
Qed.

Lemma elem_of_sorted (l : list string) p : p ∈ Py.sorted l ↔ p ∈ l.
Proof. unfold Py.sorted. by rewrite merge_sort_Permutation. Qed.

Lemma sorted_Sorted (l : list string) : StronglySorted String.le (Py.sorted l).
Proof. apply StronglySorted_merge_sort; apply _. Qed.

(** [sorted] leaves a list in ascending order as it is, whatever the
    order its elements came in. *)
Lemma sorted_unique (l l' : list string) :
  l ≡ₚ l' → StronglySorted String.le l' → Py.sorted l = l'.
Proof.
  intros Hperm Hl'.
  apply (StronglySorted_unique String.le); [apply sorted_Sorted|done|].
  unfold Py.sorted. by rewrite merge_sort_Permutation.
Qed.

Lemma StronglySorted_prefix directory (l : list string) :
  StronglySorted String.le l →
  StronglySorted String.le ((λ f, directory +:+ f) <$> l).
Proof.
  apply StronglySorted_fmap. intros f1 f2 Hle. by apply le_app_l.
Qed.

(** A name inside the range of [y] carries the year token of [y]. *)
Lemma in_range_of_year y f :
  in_range (Py.str y +:+ "-01") (Py.str y +:+ "-13") f = true →
  ∃ r, f = (Py.str y +:+ "-") +:+ r ∧
       String.leb "01" r = true ∧ String.leb r "13" = true.
Proof.
  unfold in_range. intros [Hlo Hhi]%andb_true_iff.
  apply (between_common_prefix (Py.str y +:+ "-") "01" "13");
    by rewrite app_assoc_str.
Qed.

(** Names carrying another year token are outside the range of [y]. *)
Lemma filter_other_years y (others : list string) :
  Forall (λ f, of_year y f = false) others →
  filter (λ f, in_range (Py.str y +:+ "-01") (Py.str y +:+ "-13") f) others = [].
Proof.
  induction 1 as [|f others Hf _ IH]; [done|].
  rewrite filter_cons_False; [done|].
  intros Hin%Is_true_true.
  apply in_range_of_year in Hin as (r & -> & _).
  unfold of_year in Hf. apply bool_decide_eq_false in Hf.
  apply Hf. exists r. by apply strip_prefix_Some.
Qed.

Lemma elem_of_month_files_year y directory fs p :
  y ≠ 0%Z →
  p ∈ month_files (Some y) directory fs ↔
  ∃ f, p = directory +:+ f ∧ f ∈ listdir fs directory ∧
       in_range (Py.str y +:+ "-01") (Py.str y +:+ "-13") f = true.
Proof.
  intros Hy. unfold month_files, Py.truthy.
  rewrite (proj2 (Z.eqb_neq y 0) Hy).
  rewrite elem_of_sorted, list_elem_of_fmap.
  setoid_rewrite list_elem_of_filter.
  setoid_rewrite Is_true_true.
  split; intros (f & -> & ? & ?); exists f; done.
Qed.

Lemma elem_of_month_files_all directory fs p :
  p ∈ month_files None directory fs ↔
  ∃ f, p = directory +:+ f ∧ f ∈ listdir fs directory ∧
       Py.endswith f PARQUET_EXTENSION = true.
Proof.
  unfold month_files, Py.truthy.
  rewrite elem_of_sorted, list_elem_of_fmap.
  setoid_rewrite list_elem_of_filter.
  setoid_rewrite Is_true_true.
  split; intros (f & -> & ? & ?); exists f; done.
Qed.

End listing.

(** ** Which files the merger selects *)

(** C1 (as amended): for every non-zero year the merger selects exactly
    the files of the directory whose name [f] satisfies
    [str(year) + "-01" <= f <= str(year) + "-13"]; the range is closed at
    both ends. *)
Theorem month_files_closed_range (y : Z) (directory : string) (fs : store)
    (p : string) :
  y ≠ 0%Z →
  p ∈ month_files (Some y) directory fs ↔
  ∃ f, p = directory +:+ f ∧ f ∈ listdir fs directory ∧
       String.le (Py.str y +:+ "-01") f ∧ String.le f (Py.str y +:+ "-13").
Proof.
  intros Hy. rewrite elem_of_month_files_year by done.
  unfold in_range, String.le.
  setoid_rewrite andb_true_iff. setoid_rewrite Is_true_true. done.
Qed.

Lemma month_files_closed_range_witness :
  2019%Z ≠ 0%Z ∧
  ("data/2019_parquet/2019-13" ∈
     month_files (Some 2019%Z) "data/2019_parquet/" Demo.year_dir ↔
   ∃ f, "data/2019_parquet/2019-13" = "data/2019_parquet/" +:+ f ∧
        f ∈ listdir Demo.year_dir "data/2019_parquet/" ∧
        String.le (Py.str 2019 +:+ "-01") f ∧
        String.le f (Py.str 2019 +:+ "-13")).
Proof.
  split; [lia|]. apply (month_files_closed_range 2019). lia.
Defined.

(** C1 (as stated) fails: a file named exactly as the upper bound,
    [str(year) + "-13"], is selected. *)
Lemma upper_bound_file_selected :
  String.leb (Py.str 2019 +:+ "-13") "2019-13" = true ∧
  "2019-13" ∈ listdir Demo.year_dir "data/2019_parquet/" ∧
  "data/2019_parquet/2019-13" ∈
    month_files (Some 2019%Z) "data/2019_parquet/" Demo.year_dir.
Proof.
  split; [reflexivity|].
  split; apply (bool_decide_unpack _); vm_compute; reflexivity.
Qed.

(** C7: with no year the merger selects every [.parquet] file of the
    directory, whatever year its name encodes, and nothing else. *)
Theorem month_files_all_parquet (directory : string) (fs : store) (p : string) :
  p ∈ month_files None directory fs ↔
  ∃ f, p = directory +:+ f ∧ f ∈ listdir fs directory ∧
       Py.endswith f PARQUET_EXTENSION = true.
Proof. apply elem_of_month_files_all. Qed.

(** C9: the year branch tests the name range only: in a directory that
    holds [2019-05.csv], merging 2019 selects that file although it does
    not end in [.parquet]; the no-year branch, which filters on the
    extension, leaves it out. *)
Theorem year_branch_ignores_extension :
  ∃ (fs : store) (directory f : string),
    f ∈ listdir fs directory ∧
    Py.endswith f PARQUET_EXTENSION = false ∧
    in_range (Py.str 2019 +:+ "-01") (Py.str 2019 +:+ "-13") f = true ∧
    directory +:+ f ∈ month_files (Some 2019%Z) directory fs ∧
    directory +:+ f ∉ month_files None directory fs.
Proof.
  exists Demo.year_dir, "data/2019_parquet/", "2019-05.csv".
  split; [|split; [|split; [|split]]]; try reflexivity;
    apply (bool_decide_unpack _); vm_compute; reflexivity.
Qed.

(** C2: in a directory that holds the twelve files [2019-01.parquet] ...
    [2019-12.parquet], and otherwise only files whose name carries
    another year token, merging 2019 selects these twelve files, in this
    order, and no other file. *)
Theorem merge_2019_selects_twelve (directory : string) (fs : store)
    (others : list string) :
  listdir fs directory ≡ₚ months_2019 ++ others →
  Forall (λ f, of_year 2019 f = false) others →
  month_files (Some 2019%Z) directory fs = (λ f, directory +:+ f) <$> months_2019.
Proof.
  intros Hdir Hothers. unfold month_files, Py.truthy.
  change (2019 =? 0)%Z with false. cbv iota.
  apply sorted_unique.
  - rewrite Hdir, filter_app.
    rewrite (filter_other_years 2019 others Hothers), app_nil_r.
    by vm_compute.
  - apply StronglySorted_prefix. by apply (bool_decide_unpack _).
Qed.

Lemma merge_2019_selects_twelve_witness :
  listdir Demo.months_dir "data/2019_parquet/"
    ≡ₚ months_2019 ++ ["2018-12.parquet"; "2020-01.parquet"; "2019.parquet"] ∧
  Forall (λ f, of_year 2019 f = false)
    ["2018-12.parquet"; "2020-01.parquet"; "2019.parquet"] ∧
  month_files (Some 2019%Z) "data/2019_parquet/" Demo.months_dir
    = (λ f, "data/2019_parquet/" +:+ f) <$> months_2019.
Proof.
  assert (Hdir : listdir Demo.months_dir "data/2019_parquet/"
    ≡ₚ months_2019 ++ ["2018-12.parquet"; "2020-01.parquet"; "2019.parquet"])
    by (apply (bool_decide_unpack _); vm_compute; reflexivity).
  assert (Hothers : Forall (λ f, of_year 2019 f = false)
    ["2018-12.parquet"; "2020-01.parquet"; "2019.parquet"])
    by (repeat constructor).
  split; [exact Hdir|]. split; [exact Hothers|].
  exact (merge_2019_selects_twelve _ _ _ Hdir Hothers).
Defined.

(** ** Facts about frames *)

Section frames.
Implicit Types (c : string) (cols : list string) (r : list value).
Implicit Types (df : DataFrame) (dfs : list DataFrame).

Lemma bind_Ok {A B} (m : result A) (k : A → result B) (b : B) :
  m ≫= k = Ok b ↔ ∃ a, m = Ok a ∧ k a = Ok b.
Proof.
  destruct m as [a|e]; cbn.
  - split; [by exists a|]. by intros (a' & [= <-] & ?).
  - split; [done|]. by intros (? & ? & ?).
Qed.

Lemma is_str_astype_str v : is_str (astype_str v) = true.
Proof. by destruct v. Qed.

Lemma length_map_named c g cols r :
  length (map_named c g cols r) = length r.
Proof.
  revert r. induction cols as [|n cols IH]; intros [|v r]; cbn; [done..|].
  by rewrite IH.
Qed.

Lemma cell_map_named c g cols r :
  c ∈ cols → length r = length cols →
  cell c cols (map_named c g cols r) = g (cell c cols r).
Proof.
  revert r. induction cols as [|n cols IH]; intros r Hc Hlen.
  { by apply elem_of_nil in Hc. }
  destruct r as [|v r]; [done|]. cbn.
  case_decide as Hn; [done|].
  apply IH; [|by injection Hlen].
  apply elem_of_cons in Hc as [->|Hc]; done.
Qed.

Lemma length_reindex (out : list string) cols r : length (reindex out cols r) = length out.
Proof. unfold reindex. by rewrite length_fmap. Qed.

Lemma cell_reindex c (out : list string) cols r :
  c ∈ out → cell c out (reindex out cols r) = cell c cols r.
Proof.
  induction out as [|n out IH]; intros Hc.
  { by apply elem_of_nil in Hc. }
  cbn. case_decide as Hn; [by subst|].
  apply IH. apply elem_of_cons in Hc as [->|Hc]; done.
Qed.

Lemma reindex_id cols r :
  NoDup cols → length r = length cols → reindex cols cols r = r.
Proof.
  revert r. induction cols as [|n cols IH]; intros [|v r] Hnd Hlen;
    try done.
  apply NoDup_cons in Hnd as [Hn Hnd]. unfold reindex. cbn.
  rewrite decide_True by done. f_equal.
  transitivity (reindex cols cols r); [|apply IH; [done|by injection Hlen]].
  apply Forall_fmap_ext, Forall_forall. intros c Hc.
  rewrite decide_False; [done|]. by intros ->.
Qed.

Lemma elem_of_add_columns c acc (l : list string) :
  c ∈ foldl (λ acc c, if decide (c ∈ acc) then acc else acc ++ [c]) acc l
  ↔ c ∈ acc ∨ c ∈ l.
Proof.
  revert acc. induction l as [|x l IH]; intros acc; cbn.
  { rewrite elem_of_nil. tauto. }
  rewrite IH, elem_of_cons. case_decide as Hx.
  - split; [tauto|]. intros [?|[->|?]]; tauto.
  - rewrite elem_of_app, list_elem_of_singleton. tauto.
Qed.

Lemma NoDup_add_columns acc (l : list string) :
  NoDup acc →
  NoDup (foldl (λ acc c, if decide (c ∈ acc) then acc else acc ++ [c]) acc l).
Proof.
  revert acc. induction l as [|x l IH]; intros acc Hacc; cbn; [done|].
  apply IH. case_decide as Hx; [done|].
  apply NoDup_app. split_and!; [done| |apply NoDup_singleton].
  intros y Hy ->%list_elem_of_singleton. done.
Qed.

Lemma elem_of_union_columns c dfs :
  c ∈ union_columns dfs ↔ ∃ df, df ∈ dfs ∧ c ∈ columns df.
Proof.
  unfold union_columns. rewrite elem_of_add_columns, elem_of_nil.
  rewrite list_elem_of_join. setoid_rewrite list_elem_of_fmap. split.
  - intros [[]|(cs & Hc & df & -> & Hdf)]. by exists df.
  - intros (df & Hdf & Hc). right. exists (columns df). eauto.
Qed.

Lemma NoDup_union_columns dfs : NoDup (union_columns dfs).
Proof. apply NoDup_add_columns, NoDup_nil_2. Qed.

Lemma dd_concat_Ok dfs out :
  dd_concat dfs = Ok out →
  dfs ≠ [] ∧ columns out = union_columns dfs ∧
  rows out =
    mjoin ((λ df, reindex (columns out) (columns df) <$> rows df) <$> dfs).
Proof.
  destruct dfs as [|df dfs]; [done|].
  intros [= <-]. done.
Qed.

Lemma wf_cast_birthyear df : wf df → wf (cast_birthyear df).
Proof.
  unfold wf, cast_birthyear. cbn. intros Hwf.
  apply Forall_fmap. eapply Forall_impl; [exact Hwf|].
  intros r Hr. cbn. by rewrite length_map_named.
Qed.

Lemma textual_cast_birthyear df :
  "birthyear" ∈ columns df → wf df → textual "birthyear" (cast_birthyear df).
Proof.
  intros Hc Hwf. split; [done|]. cbn. intros r (r0 & -> & Hr0)%list_elem_of_fmap.
  rewrite cell_map_named; [apply is_str_astype_str|done|].
  unfold wf in Hwf. rewrite Forall_forall in Hwf. by apply Hwf.
Qed.

Lemma update_column_astype_Ok df ddf :
  update_column "birthyear" astype_str df = Ok ddf →
  "birthyear" ∈ columns df ∧ ddf = cast_birthyear df.
Proof.
  unfold update_column. case_decide; [|done]. by intros [= <-].
Qed.

(** The frames of a concatenation keep a textual column textual. *)
Lemma textual_dd_concat c dfs out :
  dd_concat dfs = Ok out → Forall (textual c) dfs → textual c out.
Proof.
  intros (Hne & Hcols & Hrows)%dd_concat_Ok Hall.
  rewrite Forall_forall in Hall.
  assert (Hc : c ∈ columns out).
  { rewrite Hcols, elem_of_union_columns.
    destruct dfs as [|df dfs]; [done|].
    exists df. split; [left|]. apply Hall. left. }
  split; [done|]. intros r. rewrite Hrows, list_elem_of_join.
  intros (rs & Hr & (df & -> & Hdf)%list_elem_of_fmap).
  apply list_elem_of_fmap in Hr as (r0 & -> & Hr0).
  rewrite cell_reindex by done. by apply (Hall df Hdf).
Qed.

End frames.

(** ** Facts about reading and writing *)

Section io.
Implicit Types (fs : store) (df out : DataFrame) (files : list string).
Implicit Types (schema sch : list (string * pa_type)).

Lemma column_types_Ok schema df (cs : list string) sch :
  column_types schema df cs = Ok sch →
  sch.*1 = cs ∧ Forall (λ ct, column_type schema df ct.1 = Ok ct) sch.
Proof.
  revert sch. induction cs as [|c cs IH]; intros sch; cbn.
  { by intros [= <-]. }
  intros (ct & Hct & (cts & Hcts & [= <-])%bind_Ok)%bind_Ok.
  destruct (IH cts Hcts) as [Hfst Hall].
  assert (ct.1 = c) as Hc.
  { unfold column_type in Hct.
    destruct (list_find _ schema) as [[? [? t]]|].
    - destruct (forallb _ _); by simplify_eq.
    - apply bind_Ok in Hct as (t & _ & [= <-]). done. }
  split; [cbn; by rewrite Hc, Hfst|].
  constructor; [by rewrite Hc|done].
Qed.

Lemma to_parquet_Ok schema df (file : file) :
  to_parquet schema df = Ok file →
  ∃ sch, file = ParquetFile df sch ∧ NoDup (columns df) ∧
         column_types schema df (columns df) = Ok sch.
Proof.
  unfold to_parquet, arrow_schema.
  intros (sch & Hsch & [= <-])%bind_Ok.
  case_decide; [|done]. by exists sch.
Qed.

(** The type of a pinned column is the pinned one. *)
Lemma column_type_birthyear df ct :
  column_type [("birthyear", pa_string)] df "birthyear" = Ok ct →
  ct = ("birthyear", pa_string).
Proof.
  unfold column_type. cbn. rewrite decide_True by done.
  destruct (forallb (fits pa_string) _); by intros [= <-].
Qed.

Lemma read_month_files_Ok fs files (tables : list DataFrame) :
  read_month_files fs files = Ok tables →
  tables = cast_birthyear <$> stored_tables fs files ∧
  Forall (λ df, "birthyear" ∈ columns df) (stored_tables fs files).
Proof.
  revert tables. induction files as [|p files IH]; intros tables; cbn.
  { by intros [= <-]. }
  unfold path_exists, read_parquet.
  destruct (fs !! p) as [[df|df sch]|] eqn:Hp; cbn;
    fold (stored_tables fs files).
  - done.
  - intros (ddf & [Hc ->]%update_column_astype_Ok &
            (ddfs & Hrest & [= <-])%bind_Ok)%bind_Ok.
    destruct (IH _ Hrest) as [-> Hall]. split; [done|by constructor].
  - apply IH.
Qed.

Lemma merge_monthly_trips_Ok year directory fs (fs' : store) :
  merge_monthly_trips year directory fs = Ok fs' →
  ∃ tables out sch,
    read_month_files fs (month_files year directory fs) = Ok tables ∧
    dd_concat tables = Ok out ∧
    to_parquet [("birthyear", pa_string)] out = Ok (ParquetFile out sch) ∧
    fs' = <[merged_path year directory := ParquetFile out sch]> fs.
Proof.
  unfold merge_monthly_trips.
  intros (tables & Hread & (out & Hcat & (file & Hfile & [= <-])%bind_Ok)
            %bind_Ok)%bind_Ok.
  destruct (to_parquet_Ok _ _ _ Hfile) as (sch & -> & _).
  by exists tables, out, sch.
Qed.

(** An empty selection: nothing is read, and [dd.concat] raises. *)
Lemma merge_monthly_trips_nil year directory fs :
  month_files year directory fs = [] →
  read_month_files fs (month_files year directory fs) = Ok [] ∧
  merge_monthly_trips year directory fs = Raise ValueError.
Proof. unfold merge_monthly_trips. by intros ->. Qed.

End io.

(** ** The merger on an empty selection *)

(** C3 (as amended): for every non-zero year and directory in which no
    name lies in the range of the year, the selection is empty and no
    table is read; the concatenation of no table raises [ValueError], so
    the merger writes nothing. *)
Theorem empty_selection_raises (y : Z) (directory : string) (fs : store) :
  y ≠ 0%Z →
  (∀ f, f ∈ listdir fs directory →
        in_range (Py.str y +:+ "-01") (Py.str y +:+ "-13") f = false) →
  month_files (Some y) directory fs = [] ∧
  read_month_files fs (month_files (Some y) directory fs) = Ok [] ∧
  merge_monthly_trips (Some y) directory fs = Raise ValueError.
Proof.
  intros Hy Hnone.
  assert (Hsel : month_files (Some y) directory fs = []).
  { apply elem_of_nil_inv. intros p.
    rewrite elem_of_month_files_year by done.
    intros (f & _ & Hf & Hin). by rewrite (Hnone f Hf) in Hin. }
  split; [done|]. by apply merge_monthly_trips_nil.
Qed.

Lemma empty_selection_raises_witness :
  2017%Z ≠ 0%Z ∧
  (∀ f, f ∈ listdir Demo.year_dir "data/2019_parquet/" →
        in_range (Py.str 2017 +:+ "-01") (Py.str 2017 +:+ "-13") f = false) ∧
  month_files (Some 2017%Z) "data/2019_parquet/" Demo.year_dir = [] ∧
  read_month_files Demo.year_dir
    (month_files (Some 2017%Z) "data/2019_parquet/" Demo.year_dir) = Ok [] ∧
  merge_monthly_trips (Some 2017%Z) "data/2019_parquet/" Demo.year_dir
    = Raise ValueError.
Proof.
  assert (Hnone : ∀ f, f ∈ listdir Demo.year_dir "data/2019_parquet/" →
    in_range (Py.str 2017 +:+ "-01") (Py.str 2017 +:+ "-13") f = false).
  { apply Forall_forall. vm_compute. repeat constructor. }
  split; [lia|]. split; [exact Hnone|].
  apply (empty_selection_raises 2017); [lia|exact Hnone].
Defined.

(** C3 (as stated) fails: the directory of [Demo.year_dir] has no file
    for 2017, and merging 2017 ends in [ValueError] instead of an empty
    result. *)
Lemma merge_without_match_raises :
  Forall (λ f, in_range (Py.str 2017 +:+ "-01") (Py.str 2017 +:+ "-13") f = false)
    (listdir Demo.year_dir "data/2019_parquet/") ∧
  merge_monthly_trips (Some 2017%Z) "data/2019_parquet/" Demo.year_dir
    = Raise ValueError ∧
  ¬ ∃ fs', merge_monthly_trips (Some 2017%Z) "data/2019_parquet/" Demo.year_dir
           = Ok fs'.
Proof.
  assert (Hraise : merge_monthly_trips (Some 2017%Z) "data/2019_parquet/"
                     Demo.year_dir = Raise ValueError) by (by vm_compute).
  split; [vm_compute; repeat constructor|].
  split; [done|]. intros [fs' Hfs']. by rewrite Hraise in Hfs'.
Qed.

(** ** Facts about the selection as a list *)

Section selection.
Implicit Types (fs : store) (directory : string) (files : list string).

Lemma NoDup_omap_inj {A B} (f : A → option B) (l : list A) :
  (∀ x y z, f x = Some z → f y = Some z → x = y) →
  NoDup l → NoDup (omap f l).
Proof.
  intros Hinj. induction 1 as [|x l Hx _ IH]; cbn; [constructor|].
  destruct (f x) as [z|] eqn:Hfx; [|done].
  constructor; [|done].
  intros (y & Hy & Hfy)%list_elem_of_omap.
  by rewrite <-(Hinj x y z Hfx Hfy) in Hy.
Qed.

Lemma NoDup_listdir fs directory : NoDup (listdir fs directory).
Proof.
  unfold listdir. apply NoDup_omap_inj; [|apply NoDup_elements].
  intros p1 p2 name H1 H2. unfold entry_name in H1, H2.
  destruct (strip_prefix _ p1) as [n1|] eqn:Hp1; [|done].
  destruct (strip_prefix _ p2) as [n2|] eqn:Hp2; [|done].
  apply strip_prefix_Some in Hp1 as ->. apply strip_prefix_Some in Hp2 as ->.
  cbn in H1, H2.
  destruct (_ || _) in H1; [done|]. destruct (_ || _) in H2; [done|].
  congruence.
Qed.

Lemma sorted_fmap_prefix directory (l : list string) :
  Py.sorted ((λ f, directory +:+ f) <$> l)
  = (λ f, directory +:+ f) <$> Py.sorted l.
Proof.
  apply sorted_unique.
  - unfold Py.sorted. by rewrite merge_sort_Permutation.
  - apply StronglySorted_prefix, sorted_Sorted.
Qed.

(** The selection is the directory prefix put before names of the
    listing, each once and in ascending order. *)
Lemma month_files_names year directory fs :
  ∃ names,
    month_files year directory fs = (λ f, directory +:+ f) <$> names ∧
    StronglySorted String.le names ∧ NoDup names ∧
    names ⊆ listdir fs directory.
Proof.
  unfold month_files.
  destruct (Py.truthy year) as [y|];
    rewrite sorted_fmap_prefix; eexists; (split; [reflexivity|]);
    (split; [apply sorted_Sorted|]); unfold Py.sorted;
    rewrite merge_sort_Permutation;
    (split; [apply NoDup_filter, NoDup_listdir|]);
    intros f [_ Hf]%list_elem_of_filter; done.
Qed.

Lemma elem_of_stored_tables fs files (df : DataFrame) :
  df ∈ stored_tables fs files ↔
  ∃ p sch, p ∈ files ∧ fs !! p = Some (ParquetFile df sch).
Proof.
  unfold stored_tables. rewrite list_elem_of_omap. split.
  - intros (p & Hp & Hdf).
    destruct (fs !! p) as [[?|df' sch]|] eqn:Hfs; simplify_eq.
    by exists p, sch.
  - intros (p & sch & Hp & Hfs). exists p. by rewrite Hfs.
Qed.

Lemma add_columns_absorb (acc l : list string) :
  l ⊆ acc →
  foldl (λ acc c, if decide (c ∈ acc) then acc else acc ++ [c]) acc l = acc.
Proof.
  induction l as [|c l IH]; intros Hsub; cbn; [done|].
  rewrite decide_True by (apply Hsub; left).
  apply IH. intros x Hx. apply Hsub. by right.
Qed.

Lemma add_columns_fresh (acc l : list string) :
  NoDup (acc ++ l) →
  foldl (λ acc c, if decide (c ∈ acc) then acc else acc ++ [c]) acc l
  = acc ++ l.
Proof.
  revert acc. induction l as [|c l IH]; intros acc Hnd; cbn.
  { by rewrite app_nil_r. }
  apply NoDup_app in Hnd as Hparts. destruct Hparts as (_ & Hdisj & _).
  rewrite decide_False by (intros Hc; apply (Hdisj c Hc); left).
  rewrite IH; rewrite <-app_assoc; done.
Qed.

(** Frames that share one header are concatenated under that header. *)
Lemma union_columns_same (cs : list string) (dfs : list DataFrame) :
  dfs ≠ [] → NoDup cs → Forall (λ df, columns df = cs) dfs →
  union_columns dfs = cs.
Proof.
  intros Hne Hnd Hall. destruct dfs as [|df dfs]; [done|].
  apply Forall_cons in Hall as [Hdf Hall].
  unfold union_columns. cbn [fmap list_fmap mjoin list_join].
  rewrite foldl_app, Hdf, (add_columns_fresh [] cs) by done. cbn.
  apply add_columns_absorb.
  intros c (cs' & Hc & (df' & -> & Hdf')%list_elem_of_fmap)%list_elem_of_join.
  rewrite Forall_forall in Hall. by rewrite <-(Hall df' Hdf').
Qed.

End selection.

(** ** The merged file *)

Section merged.
Implicit Types (fs : store) (directory : string) (year : option Z).

Lemma store_wf_stored_tables fs (files : list string) :
  store_wf fs → Forall wf (stored_tables fs files).
Proof.
  intros Hwf. apply Forall_forall.
  intros df (p & sch & _ & Hp)%elem_of_stored_tables.
  apply (Hwf p _ Hp).
Qed.

Lemma merged_path_all directory :
  merged_path None directory = directory +:+ "alltrips.parquet".
Proof. unfold merged_path. by rewrite app_assoc_str. Qed.

End merged.

(** C5: the merged output has a textual [birthyear] column whatever the
    storage of [birthyear] in the monthly files: every table read is
    given a textual [birthyear] before the concatenation, every
    [birthyear] cell of the merged table is a text, and the schema of the
    written file gives [birthyear] the type [pa_string] and no other. *)
Theorem merged_birthyear_textual (year : option Z) (directory : string)
    (fs fs' : store) :
  store_wf fs →
  merge_monthly_trips year directory fs = Ok fs' →
  ∃ tables out sch,
    read_month_files fs (month_files year directory fs) = Ok tables ∧
    Forall (textual "birthyear") tables ∧
    dd_concat tables = Ok out ∧
    fs' !! merged_path year directory = Some (ParquetFile out sch) ∧
    textual "birthyear" out ∧
    ("birthyear", pa_string) ∈ sch ∧
    (∀ t, ("birthyear", t) ∈ sch → t = pa_string).
Proof.
  intros Hwf (tables & out & sch & Hread & Hcat & Hfile & ->)
    %merge_monthly_trips_Ok.
  destruct (read_month_files_Ok _ _ _ Hread) as [Htables Hcols].
  assert (Htext : Forall (textual "birthyear") tables).
  { subst tables. apply Forall_fmap.
    pose proof (store_wf_stored_tables fs (month_files year directory fs) Hwf)
      as Hwfs.
    rewrite Forall_forall in Hcols, Hwfs. apply Forall_forall.
    intros df Hdf. apply textual_cast_birthyear; auto. }
  pose proof (textual_dd_concat _ _ _ Hcat Htext) as Hout.
  apply to_parquet_Ok in Hfile as (sch' & [= <-] & _ & Hsch).
  apply column_types_Ok in Hsch as [Hfst Hall]. rewrite Forall_forall in Hall.
  assert (Hpin : ∀ t, ("birthyear", t) ∈ sch → t = pa_string).
  { intros t Ht. specialize (Hall _ Ht). cbn in Hall.
    apply column_type_birthyear in Hall. congruence. }
  exists tables, out, sch. split_and!; try done.
  - by rewrite lookup_insert_eq.
  - destruct Hout as [Hc _]. rewrite <-Hfst in Hc.
    apply list_elem_of_fmap in Hc as ([c t] & Hc & Hin). cbn in Hc. subst c.
    by rewrite <-(Hpin t Hin).
Qed.

Lemma merged_birthyear_textual_witness :
  store_wf Demo.two_months ∧
  merge_monthly_trips (Some 2019%Z) "trips/" Demo.two_months
    = Ok Demo.two_months_2019 ∧
  ∃ tables out sch,
    read_month_files Demo.two_months
      (month_files (Some 2019%Z) "trips/" Demo.two_months) = Ok tables ∧
    Forall (textual "birthyear") tables ∧
    dd_concat tables = Ok out ∧
    Demo.two_months_2019 !! merged_path (Some 2019%Z) "trips/"
      = Some (ParquetFile out sch) ∧
    textual "birthyear" out ∧
    ("birthyear", pa_string) ∈ sch ∧
    (∀ t, ("birthyear", t) ∈ sch → t = pa_string).
Proof.
  assert (Hwf : store_wf Demo.two_months)
    by (apply (bool_decide_unpack _); vm_compute; reflexivity).
  assert (Hrun : merge_monthly_trips (Some 2019%Z) "trips/" Demo.two_months
                 = Ok Demo.two_months_2019) by (vm_compute; reflexivity).
  split; [exact Hwf|]. split; [exact Hrun|].
  exact (merged_birthyear_textual _ _ _ _ Hwf Hrun).
Defined.

(** C6: the merged table is the row-wise concatenation of the tables of
    the selected files: the files are taken in ascending order of their
    names, each once, and the rows of a file stay in their order (with
    [birthyear] cast to text and laid out under the merged header); for
    files that share one header the rows are concatenated as they are. *)
Theorem merged_rows_in_file_order (year : option Z) (directory : string)
    (fs fs' : store) :
  merge_monthly_trips year directory fs = Ok fs' →
  ∃ names out sch,
    month_files year directory fs = (λ f, directory +:+ f) <$> names ∧
    StronglySorted String.le names ∧ NoDup names ∧
    fs' !! merged_path year directory = Some (ParquetFile out sch) ∧
    let tables :=
      cast_birthyear <$> stored_tables fs (month_files year directory fs) in
    rows out =
      mjoin ((λ ddf, reindex (columns out) (columns ddf) <$> rows ddf)
             <$> tables) ∧
    ∀ cs, NoDup cs → Forall (λ ddf, columns ddf = cs ∧ wf ddf) tables →
          columns out = cs ∧ rows out = mjoin (rows <$> tables).
Proof.
  intros (tables & out & sch & Hread & Hcat & _ & ->)%merge_monthly_trips_Ok.
  destruct (month_files_names year directory fs)
    as (names & Hnames & Hsorted & Hnd & _).
  destruct (read_month_files_Ok _ _ _ Hread) as [Htables _].
  destruct (dd_concat_Ok _ _ Hcat) as (Hne & Hcols & Hrows).
  exists names, out, sch. split_and!; try done.
  { by rewrite lookup_insert_eq. }
  cbv zeta. rewrite <-Htables. split; [done|].
  intros cs Hcs Hsame.
  assert (Hhdr : columns out = cs).
  { rewrite Hcols. apply union_columns_same; [done..|].
    eapply Forall_impl; [exact Hsame|]. by intros ddf [? _]. }
  split; [done|]. rewrite Hrows, Hhdr. f_equal.
  apply Forall_fmap_ext. eapply Forall_impl; [exact Hsame|].
  intros ddf [Hddf Hwf]. cbn.
  rewrite <-(list_fmap_id (rows ddf)) at 2.
  apply Forall_fmap_ext. eapply Forall_impl; [exact Hwf|].
  intros r Hr. cbn in Hr. rewrite Hddf in Hr |- *.
  unfold id. by apply reindex_id.
Qed.

Lemma merged_rows_in_file_order_witness :
  merge_monthly_trips (Some 2019%Z) "trips/" Demo.two_months
    = Ok Demo.two_months_2019 ∧
  ∃ names out sch,
    month_files (Some 2019%Z) "trips/" Demo.two_months
      = (λ f, "trips/" +:+ f) <$> names ∧
    StronglySorted String.le names ∧ NoDup names ∧
    Demo.two_months_2019 !! merged_path (Some 2019%Z) "trips/"
      = Some (ParquetFile out sch) ∧
    let tables :=
      cast_birthyear <$>
        stored_tables Demo.two_months
          (month_files (Some 2019%Z) "trips/" Demo.two_months) in
    rows out =
      mjoin ((λ ddf, reindex (columns out) (columns ddf) <$> rows ddf)
             <$> tables) ∧
    ∀ cs, NoDup cs → Forall (λ ddf, columns ddf = cs ∧ wf ddf) tables →
          columns out = cs ∧ rows out = mjoin (rows <$> tables).
Proof.
  assert (Hrun : merge_monthly_trips (Some 2019%Z) "trips/" Demo.two_months
                 = Ok Demo.two_months_2019) by (vm_compute; reflexivity).
  split; [exact Hrun|].
  exact (merged_rows_in_file_order _ _ _ _ Hrun).
Defined.

(** The merge of [Demo.two_months]: January's rows, then February's. *)
Example merged_two_months :
  Demo.two_months_2019 !! "trips/2019.parquet" =
  Some (ParquetFile
          (mkDataFrame ["tripduration"; "birthyear"]
             [[VInt 320; VStr "1985"]; [VInt 100; VStr "1990"];
              [VInt 75; VStr "0"]; [VInt 610; VStr "1969"]])
          [("tripduration", pa_int64); ("birthyear", pa_string)]).
Proof. vm_compute. reflexivity. Qed.



(** The second merge of [Demo.two_months] reads three files. *)
Example second_merge_selection :
  month_files None "trips/" Demo.two_months_all =
  ["trips/2019-01.parquet"; "trips/2019-02.parquet"; "trips/alltrips.parquet"].
Proof. vm_compute. reflexivity. Qed.

(** ** The converter *)

Section converter.
Implicit Types (fs : store) (cols : list string) (r : list value).

Lemma lookup_map_named c g cols r (i : nat) v :
  cols !! i = Some c → r !! i = Some v →
  map_named c g cols r !! i = Some (g v).
Proof.
  revert r i. induction cols as [|n cols IH]; intros [|w r] [|i] Hc Hv;
    try done; cbn in *.
  - simplify_eq. by rewrite decide_True.
  - by apply IH.
Qed.

Lemma clean_csv_Ok (csv_df out : DataFrame) :
  clean_csv csv_df = Ok out →
  columns out = (λ col, Py.remove_spaces (Py.lower col)) <$> columns csv_df ∧
  "birthyear" ∈ columns out ∧
  rows out = converted_row (columns out) <$>
             filter (λ r, negb (existsb is_null r)) (rows csv_df).
Proof.
  unfold clean_csv, update_column. cbn. case_decide; [|done].
  by intros [= <-].
Qed.

End converter.

(** C4: the frame written for a csv file holds, in order, the converted
    rows of the input rows that have no missing value, and the converted
    row of a row whose birth-year cell is the marker [\N] has the text
    ["0"] in that cell. *)
Theorem missing_birthyear_becomes_zero (csv_df out : DataFrame) :
  clean_csv csv_df = Ok out →
  rows out = converted_row (columns out) <$>
             filter (λ r, negb (existsb is_null r)) (rows csv_df) ∧
  ∀ (r : list value) (i : nat),
    columns out !! i = Some "birthyear" → r !! i = Some (VStr "\N") →
    converted_row (columns out) r !! i = Some (VStr "0").
Proof.
  intros (_ & _ & Hrows)%clean_csv_Ok. split; [done|].
  intros r i Hc Hv. unfold converted_row.
  by rewrite (lookup_map_named _ _ _ _ _ _ Hc Hv).
Qed.

Lemma missing_birthyear_becomes_zero_witness :
  clean_csv Demo.feb_csv
    = Ok (mkDataFrame ["tripduration"; "endstationid"; "birthyear"]
            [[VInt 75; VInt 497; VStr "0"]; [VInt 610; VInt 3255; VStr "1969"]]) ∧
  let out := mkDataFrame ["tripduration"; "endstationid"; "birthyear"]
               [[VInt 75; VInt 497; VStr "0"]; [VInt 610; VInt 3255; VStr "1969"]] in
  rows out = converted_row (columns out) <$>
             filter (λ r, negb (existsb is_null r)) (rows Demo.feb_csv) ∧
  ∀ (r : list value) (i : nat),
    columns out !! i = Some "birthyear" → r !! i = Some (VStr "\N") →
    converted_row (columns out) r !! i = Some (VStr "0").
Proof.
  assert (Hrun : clean_csv Demo.feb_csv
    = Ok (mkDataFrame ["tripduration"; "endstationid"; "birthyear"]
            [[VInt 75; VInt 497; VStr "0"]; [VInt 610; VInt 3255; VStr "1969"]]))
    by (vm_compute; reflexivity).
  split; [exact Hrun|].
  exact (missing_birthyear_becomes_zero _ _ Hrun).
Defined.

(** ** The files the converter writes *)

Section written.
Implicit Types (fs : store) (directory_to : string) (csv_files : list string).

(** One turn of the loop that does not raise stores a parquet file at
    [parquet_path]. *)
Lemma convert_files_cons directory_to csv_file csv_files fs fs' :
  convert_files directory_to (csv_file :: csv_files) fs = (fs', Ok tt) →
  ∃ df sch,
    convert_files directory_to csv_files
      (<[parquet_path directory_to csv_file := ParquetFile df sch]> fs)
    = (fs', Ok tt).
Proof.
  cbn [convert_files]. fold (parquet_path directory_to csv_file).
  destruct (_ ≫= _) as [file|e] eqn:Hfile; [|done].
  apply bind_Ok in Hfile as (? & _ & (? & _ & Hw)%bind_Ok).
  apply to_parquet_Ok in Hw as (sch & -> & _). eauto.
Qed.

(** The loop only adds parquet files. *)
Lemma convert_files_keeps_parquet directory_to csv_files fs fs' r p :
  convert_files directory_to csv_files fs = (fs', r) →
  is_parquet fs p → is_parquet fs' p.
Proof.
  revert fs. induction csv_files as [|csv_file csv_files IH]; intros fs.
  { by intros [= <- _]. }
  cbn [convert_files]. fold (parquet_path directory_to csv_file).
  destruct (_ ≫= _) as [file|e] eqn:Hfile; [|by intros [= <- _]].
  apply bind_Ok in Hfile as (? & _ & (? & _ & Hw)%bind_Ok).
  apply to_parquet_Ok in Hw as (sch & -> & _).
  intros Hrun Hp. apply (IH _ Hrun).
  destruct (decide (parquet_path directory_to csv_file = p)) as [<-|Hne].
  - eexists _, _. apply lookup_insert_eq.
  - destruct Hp as (df & sch' & Hp). exists df, sch'.
    by rewrite lookup_insert_ne.
Qed.

Lemma convert_files_written directory_to csv_files fs fs' csv_file :
  convert_files directory_to csv_files fs = (fs', Ok tt) →
  csv_file ∈ csv_files →
  is_parquet fs' (parquet_path directory_to csv_file).
Proof.
  revert fs. induction csv_files as [|c csv_files IH]; intros fs Hrun Hin.
  { by apply elem_of_nil in Hin. }
  apply convert_files_cons in Hrun as (df & sch & Hrun).
  apply elem_of_cons in Hin as [->|Hin]; [|by apply (IH _ Hrun)].
  apply (convert_files_keeps_parquet _ _ _ _ _ _ Hrun).
  eexists _, _. apply lookup_insert_eq.
Qed.

(** A path whose content changed is the [newfilepath] of a csv file. *)
Lemma convert_files_changed directory_to csv_files fs fs' r p :
  convert_files directory_to csv_files fs = (fs', r) →
  fs' !! p ≠ fs !! p →
  ∃ csv_file, csv_file ∈ csv_files ∧ p = parquet_path directory_to csv_file.
Proof.
  revert fs. induction csv_files as [|c csv_files IH]; intros fs.
  { by intros [= <- _]. }
  cbn [convert_files]. fold (parquet_path directory_to c).
  destruct (_ ≫= _) as [file|e]; [|by intros [= <- _]].
  intros Hrun Hp.
  destruct (decide (p = parquet_path directory_to c)) as [->|Hne].
  { exists c. split; [left|done]. }
  destruct (IH _ Hrun) as (csv_file & Hin & ->).
  - by rewrite lookup_insert_ne.
  - exists csv_file. split; [by right|done].
Qed.

Lemma app_inj_r_str (s t u : string) : s +:+ u = t +:+ u → s = t.
Proof.
  revert t. induction s as [|c s IH]; intros [|d t] H; [done| | |].
  - apply (f_equal String.length) in H.
    rewrite app_nil_l_str, length_app_str in H. cbn in H. lia.
  - apply (f_equal String.length) in H.
    rewrite app_nil_l_str, length_app_str in H. cbn in H. lia.
  - rewrite !app_cons_str in H. injection H as -> H. f_equal. by apply IH.
Qed.

(** [newfilepath] for the file [b + ".csv"] of the source directory. *)
Lemma parquet_path_csv directory_from directory_to b :
  Py.endswith directory_from "/" = true → has_slash (b +:+ ".csv") = false →
  parquet_path directory_to (directory_from +:+ (b +:+ ".csv"))
  = directory_to +:+ (b +:+ ".parquet").
Proof.
  intros Hsep Hb. unfold parquet_path, parquet_name.
  rewrite last_item_split, drop_last4_ext by done.
  apply app_assoc_str.
Qed.

End written.

(** C8 (as amended): when the two directories are given with their
    final separator and the run ends without an exception, every file
    [b.csv] of the source directory has its parquet file [b.parquet] in
    the destination directory, two csv files never share their parquet
    file, and every path the run changed is the [newfilepath] of a file
    of the source directory: its name cut by four characters, under the
    destination, with [.parquet]. *)
Theorem convert_writes_parquet_per_csv (directory_from directory_to : string)
    (fs fs' : store) :
  Py.endswith directory_from "/" = true →
  Py.endswith directory_to "/" = true →
  convert_to_parquet directory_from directory_to fs = (fs', Ok tt) →
  (∀ b, b +:+ ".csv" ∈ listdir fs directory_from →
        b +:+ ".parquet" ∈ listdir fs' directory_to ∧
        is_parquet fs' (directory_to +:+ (b +:+ ".parquet"))) ∧
  (∀ b1 b2, directory_to +:+ (b1 +:+ ".parquet")
            = directory_to +:+ (b2 +:+ ".parquet") → b1 = b2) ∧
  (∀ p, fs' !! p ≠ fs !! p →
        ∃ f, f ∈ listdir fs directory_from ∧
             p = (directory_to +:+ Py.drop_last4 f) +:+ ".parquet").
Proof.
  intros Hfrom Hto Hrun. unfold convert_to_parquet in Hrun. split_and!.
  - intros b Hb.
    pose proof Hb as (_ & Hsl & _)%elem_of_listdir.
    assert (Hpq : is_parquet fs' (directory_to +:+ (b +:+ ".parquet"))).
    { rewrite <-(parquet_path_csv directory_from) by done.
      apply (convert_files_written _ _ _ _ _ Hrun).
      apply elem_of_sorted, list_elem_of_fmap. by exists (b +:+ ".csv"). }
    split; [|done]. apply elem_of_listdir.
    rewrite has_slash_app in Hsl |- *. apply orb_false_iff in Hsl as [-> _].
    split_and!; [by destruct b|done|].
    rewrite (with_sep_id _ Hto). destruct Hpq as (df & sch & ->). eauto.
  - intros b1 b2 Hb%(inj (String.app directory_to)).
    by apply app_inj_r_str in Hb.
  - intros p Hp.
    destruct (convert_files_changed _ _ _ _ _ _ Hrun Hp) as (csv_file & Hin & ->).
    apply elem_of_sorted, list_elem_of_fmap in Hin as (f & -> & Hf).
    exists f. split; [done|].
    pose proof Hf as (_ & Hsl & _)%elem_of_listdir.
    unfold parquet_path, parquet_name. by rewrite last_item_split.
Qed.

Lemma convert_writes_parquet_per_csv_witness :
  Py.endswith "data/2019_csv/" "/" = true ∧
  Py.endswith "data/2019_parquet/" "/" = true ∧
  convert_to_parquet "data/2019_csv/" "data/2019_parquet/" Demo.csv_dir
    = (Demo.csv_dir_converted, Ok tt) ∧
  (∀ b, b +:+ ".csv" ∈ listdir Demo.csv_dir "data/2019_csv/" →
        b +:+ ".parquet" ∈ listdir Demo.csv_dir_converted "data/2019_parquet/" ∧
        is_parquet Demo.csv_dir_converted
          ("data/2019_parquet/" +:+ (b +:+ ".parquet"))) ∧
  (∀ b1 b2, "data/2019_parquet/" +:+ (b1 +:+ ".parquet")
            = "data/2019_parquet/" +:+ (b2 +:+ ".parquet") → b1 = b2) ∧
  (∀ p, Demo.csv_dir_converted !! p ≠ Demo.csv_dir !! p →
        ∃ f, f ∈ listdir Demo.csv_dir "data/2019_csv/" ∧
             p = ("data/2019_parquet/" +:+ Py.drop_last4 f) +:+ ".parquet").
Proof.
  assert (Hfrom : Py.endswith "data/2019_csv/" "/" = true) by reflexivity.
  assert (Hto : Py.endswith "data/2019_parquet/" "/" = true) by reflexivity.
  assert (Hrun : convert_to_parquet "data/2019_csv/" "data/2019_parquet/"
                   Demo.csv_dir = (Demo.csv_dir_converted, Ok tt))
    by (vm_compute; reflexivity).
  split; [exact Hfrom|]. split; [exact Hto|]. split; [exact Hrun|].
  exact (convert_writes_parquet_per_csv _ _ _ _ Hfrom Hto Hrun).
Defined.

(** The run of the converter on [Demo.csv_dir]. *)
Example converted_listing :
  listdir Demo.csv_dir_converted "data/2019_parquet/"
  ≡ₚ ["2019-01.parquet"; "2019-02.parquet"].
Proof. apply (bool_decide_unpack _). vm_compute. reflexivity. Qed.

(** C8 (as stated) fails: the source directory holds the single file
    [trips]; the run ends without an exception and the destination holds
    the single file [t.parquet], whose base name is not [trips]. *)
Lemma parquet_name_cuts_four_characters :
  listdir Demo.plain_name "csv/" = ["trips"] ∧
  convert_to_parquet "csv/" "pq/" Demo.plain_name
    = (Demo.plain_name_converted, Ok tt) ∧
  listdir Demo.plain_name_converted "pq/" = ["t.parquet"] ∧
  "trips.parquet" ∉ listdir Demo.plain_name_converted "pq/".
Proof.
  split_and!; try (vm_compute; reflexivity).
  apply (bool_decide_unpack _). vm_compute. reflexivity.
Qed.


(** ** More about the merger *)

Section merger_more.
Implicit Types (fs : store) (directory : string) (year : option Z).

Lemma merged_name_year (y : Z) : y ≠ 0%Z → merged_name (Some y) = Py.str y.
Proof.
  intros Hy. unfold merged_name, Py.truthy.
  by rewrite (proj2 (Z.eqb_neq y 0) Hy).
Qed.

Lemma elem_of_month_files year directory fs p :
  p ∈ month_files year directory fs →
  ∃ f, p = directory +:+ f ∧ f ∈ listdir fs directory.
Proof.
  destruct (month_files_names year directory fs) as (names & -> & _ & _ & Hsub).
  intros (f & -> & Hf)%list_elem_of_fmap. exists f. split; [done|].
  by apply Hsub.
Qed.

(** The loop reads the selected paths only. *)
Lemma read_month_files_ext fs1 fs2 (files : list string) :
  (∀ p, p ∈ files → fs1 !! p = fs2 !! p) →
  read_month_files fs1 files = read_month_files fs2 files.
Proof.
  induction files as [|p files IH]; intros Hagree; [done|].
  cbn [read_month_files]. unfold path_exists, read_parquet.
  rewrite (Hagree p) by left.
  rewrite IH; [done|]. intros q Hq. apply Hagree. by right.
Qed.

Lemma row_count_cast (dfs : list DataFrame) :
  row_count (cast_birthyear <$> dfs) = row_count dfs.
Proof.
  unfold row_count. rewrite <-list_fmap_compose. f_equal.
  apply list_fmap_ext. intros _ df _. cbn. by rewrite length_fmap.
Qed.

Lemma dd_concat_row_count (dfs : list DataFrame) (out : DataFrame) :
  dd_concat dfs = Ok out → length (rows out) = row_count dfs.
Proof.
  intros (_ & _ & ->)%dd_concat_Ok. rewrite length_join.
  unfold row_count. rewrite <-!list_fmap_compose. f_equal.
  apply list_fmap_ext. intros _ df _. cbn. by rewrite length_fmap.
Qed.

End merger_more.

(** X1: no row is lost or repeated by a merge: the merged table has as
    many rows as the tables of the selected files have together. *)
Theorem merged_row_count (year : option Z) (directory : string)
    (fs fs' : store) :
  merge_monthly_trips year directory fs = Ok fs' →
  ∃ out sch,
    fs' !! merged_path year directory = Some (ParquetFile out sch) ∧
    length (rows out)
    = row_count (stored_tables fs (month_files year directory fs)).
Proof.
  intros (tables & out & sch & Hread & Hcat & _ & ->)%merge_monthly_trips_Ok.
  exists out, sch. split; [apply lookup_insert_eq|].
  apply read_month_files_Ok in Hread as [-> _].
  by rewrite (dd_concat_row_count _ _ Hcat), row_count_cast.
Qed.

Lemma merged_row_count_witness :
  merge_monthly_trips (Some 2019%Z) "trips/" Demo.two_months
    = Ok Demo.two_months_2019 ∧
  ∃ out sch,
    Demo.two_months_2019 !! merged_path (Some 2019%Z) "trips/"
      = Some (ParquetFile out sch) ∧
    length (rows out)
    = row_count (stored_tables Demo.two_months
                   (month_files (Some 2019%Z) "trips/" Demo.two_months)).
Proof.
  assert (Hrun : merge_monthly_trips (Some 2019%Z) "trips/" Demo.two_months
                 = Ok Demo.two_months_2019) by (vm_compute; reflexivity).
  split; [exact Hrun|].
  exact (merged_row_count _ _ _ _ Hrun).
Defined.


(** ** Merging again *)

Section remerge.
Implicit Types (fs : store) (directory : string) (year : option Z).

Lemma month_files_selects year directory fs :
  month_files year directory fs
  = Py.sorted ((λ f, directory +:+ f) <$>
               filter (λ f, selects year f) (listdir fs directory)).
Proof. unfold month_files, selects. by destruct (Py.truthy year). Qed.

Lemma sorted_perm (l l' : list string) : l ≡ₚ l' → Py.sorted l = Py.sorted l'.
Proof.
  intros Hperm. apply sorted_unique; [|apply sorted_Sorted].
  unfold Py.sorted. by rewrite merge_sort_Permutation.
Qed.

Lemma listdir_insert fs directory p (file : file) f :
  f ∈ listdir (<[p := file]> fs) directory ↔
  (f ≠ EmptyString ∧ has_slash f = false ∧ with_sep directory +:+ f = p)
  ∨ f ∈ listdir fs directory.
Proof.
  rewrite !elem_of_listdir.
  destruct (decide (p = with_sep directory +:+ f)) as [->|Hne].
  - rewrite lookup_insert_eq. split.
    + intros (? & ? & _). by left.
    + intros [(? & ? & _)|(? & ? & _)]; split_and!; eauto.
  - rewrite lookup_insert_ne by done. split; [by right|].
    intros [(_ & _ & ?)|?]; [congruence|done].
Qed.

(** A new entry that the test of [year] refuses leaves the selection
    as it is. *)
Lemma month_files_insert_unselected year directory fs p (file : file) :
  (∀ f, with_sep directory +:+ f = p → selects year f = false) →
  month_files year directory (<[p := file]> fs) = month_files year directory fs.
Proof.
  intros Hp. rewrite !month_files_selects.
  apply sorted_perm, fmap_Permutation.
  apply NoDup_Permutation; [apply NoDup_filter, NoDup_listdir..|].
  intros f. rewrite !list_elem_of_filter, listdir_insert.
  split; [|tauto]. intros [Hsel [(_ & _ & Hf)|Hf]]; [|done].
  by rewrite (Hp f Hf) in Hsel.
Qed.

(** A new entry that the test of [year] accepts joins the selection. *)
Lemma month_files_insert_selected year directory fs g (file : file) :
  Py.endswith directory "/" = true →
  g ≠ EmptyString → has_slash g = false → selects year g = true →
  fs !! (directory +:+ g) = None →
  month_files year directory (<[directory +:+ g := file]> fs)
  ≡ₚ (directory +:+ g) :: month_files year directory fs.
Proof.
  intros Hsep Hg Hsl Hsel Hnew. rewrite !month_files_selects.
  unfold Py.sorted. rewrite !merge_sort_Permutation.
  transitivity ((λ f, directory +:+ f) <$>
                (g :: filter (λ f, selects year f) (listdir fs directory)));
    [|done].
  apply fmap_Permutation.
  assert (Hfresh : g ∉ listdir fs directory).
  { intros (_ & _ & Hin)%elem_of_listdir.
    rewrite (with_sep_id _ Hsep), Hnew in Hin. by destruct Hin. }
  apply NoDup_Permutation.
  - apply NoDup_filter, NoDup_listdir.
  - apply NoDup_cons. split; [|apply NoDup_filter, NoDup_listdir].
    by intros [_ ?]%list_elem_of_filter.
  - intros f. rewrite elem_of_cons, !list_elem_of_filter, listdir_insert.
    rewrite (with_sep_id _ Hsep). split.
    + intros [Hf [(_ & _ & ->%(inj (String.app directory)))|Hin]]; auto.
    + intros [->|[Hf Hin]]; [|auto]. split; [by apply Is_true_true|].
      by left.
Qed.

Lemma stored_tables_ext fs1 fs2 (files : list string) :
  (∀ p, p ∈ files → fs1 !! p = fs2 !! p) →
  stored_tables fs1 files = stored_tables fs2 files.
Proof.
  induction files as [|p files IH]; intros Hagree; [done|].
  unfold stored_tables in *. cbn.
  rewrite (Hagree p) by left.
  rewrite IH; [done|]. intros q Hq. apply Hagree. by right.
Qed.

Lemma row_count_perm (dfs dfs' : list DataFrame) :
  dfs ≡ₚ dfs' → row_count dfs = row_count dfs'.
Proof.
  induction 1 as [|df l l' _ IH|df df' l|l l' l'' _ IH1 _ IH2];
    unfold row_count in *; cbn in *; lia.
Qed.

(** The output of a year merge is outside the range of the year. *)
Lemma year_output_unselected (y : Z) :
  y ≠ 0%Z → selects (Some y) (Py.str y +:+ ".parquet") = false.
Proof.
  intros Hy. unfold selects, Py.truthy, in_range.
  rewrite (proj2 (Z.eqb_neq y 0) Hy), !leb_app_l. done.
Qed.

Lemma merged_path_year (y : Z) directory :
  y ≠ 0%Z →
  merged_path (Some y) directory = directory +:+ (Py.str y +:+ ".parquet").
Proof.
  intros Hy. unfold merged_path. by rewrite merged_name_year, app_assoc_str.
Qed.

End remerge.

(** X2: a year merge does not take its own output as input: the file
    [str(year) + ".parquet"] lies outside the range of the year, so
    merging the same year again selects the same files and stores the
    same output. *)
Theorem year_merge_idempotent (y : Z) (directory : string) (fs fs' : store) :
  y ≠ 0%Z →
  Py.endswith directory "/" = true →
  merge_monthly_trips (Some y) directory fs = Ok fs' →
  (merged_path (Some y) directory ∉ month_files (Some y) directory fs') ∧
  month_files (Some y) directory fs' = month_files (Some y) directory fs ∧
  merge_monthly_trips (Some y) directory fs' = Ok fs'.
Proof.
  intros Hy Hsep Hrun.
  destruct (merge_monthly_trips_Ok _ _ _ _ Hrun)
    as (tables & out & sch & Hread & Hcat & Hfile & ->).
  rewrite merged_path_year in * by done.
  assert (Hno : ∀ fs0, directory +:+ (Py.str y +:+ ".parquet")
                       ∉ month_files (Some y) directory fs0).
  { intros fs0 (f & Hf & _ & Hin)%elem_of_month_files_year; [|done].
    apply (inj (String.app directory)) in Hf as <-.
    pose proof (year_output_unselected y Hy) as Hout.
    unfold selects, Py.truthy in Hout.
    rewrite (proj2 (Z.eqb_neq y 0) Hy) in Hout. congruence. }
  assert (Hsel : month_files (Some y) directory
                   (<[directory +:+ (Py.str y +:+ ".parquet")
                      := ParquetFile out sch]> fs)
                 = month_files (Some y) directory fs).
  { apply month_files_insert_unselected. intros f.
    rewrite (with_sep_id _ Hsep). intros ->%(inj (String.app directory)).
    by apply year_output_unselected. }
  split_and!; [apply Hno|done|].
  unfold merge_monthly_trips. rewrite Hsel.
  rewrite (read_month_files_ext _ fs), Hread; cbn.
  - rewrite Hcat. cbn. rewrite Hfile. cbn.
    fold (merged_path (Some y) directory).
    by rewrite merged_path_year, insert_insert_eq.
  - intros p Hp. apply lookup_insert_ne. intros <-. by apply (Hno fs).
Qed.

Lemma year_merge_idempotent_witness :
  2019%Z ≠ 0%Z ∧
  Py.endswith "trips/" "/" = true ∧
  merge_monthly_trips (Some 2019%Z) "trips/" Demo.two_months
    = Ok Demo.two_months_2019 ∧
  (merged_path (Some 2019%Z) "trips/"
     ∉ month_files (Some 2019%Z) "trips/" Demo.two_months_2019) ∧
  month_files (Some 2019%Z) "trips/" Demo.two_months_2019
    = month_files (Some 2019%Z) "trips/" Demo.two_months ∧
  merge_monthly_trips (Some 2019%Z) "trips/" Demo.two_months_2019
    = Ok Demo.two_months_2019.
Proof.
  assert (Hy : 2019%Z ≠ 0%Z) by lia.
  assert (Hsep : Py.endswith "trips/" "/" = true) by reflexivity.
  assert (Hrun : merge_monthly_trips (Some 2019%Z) "trips/" Demo.two_months
                 = Ok Demo.two_months_2019) by (vm_compute; reflexivity).
  split; [exact Hy|]. split; [exact Hsep|]. split; [exact Hrun|].
  exact (year_merge_idempotent _ _ _ _ Hy Hsep Hrun).
Defined.

(** X3: a merge with no year does take its output as input the next
    time: when the directory held no [alltrips.parquet] before, the
    second output has twice as many rows as the first. *)
Theorem remerge_doubles_rows (directory : string) (fs fs1 fs2 : store) :
  Py.endswith directory "/" = true →
  fs !! merged_path None directory = None →
  merge_monthly_trips None directory fs = Ok fs1 →
  merge_monthly_trips None directory fs1 = Ok fs2 →
  ∃ out1 sch1 out2 sch2,
    fs1 !! merged_path None directory = Some (ParquetFile out1 sch1) ∧
    fs2 !! merged_path None directory = Some (ParquetFile out2 sch2) ∧
    length (rows out2) = 2 * length (rows out1).
Proof.
  intros Hsep Hnew Hrun1 Hrun2.
  destruct (merge_monthly_trips_Ok _ _ _ _ Hrun1)
    as (tables1 & out1 & sch1 & Hread1 & Hcat1 & _ & ->).
  destruct (merge_monthly_trips_Ok _ _ _ _ Hrun2)
    as (tables2 & out2 & sch2 & Hread2 & Hcat2 & _ & ->).
  exists out1, sch1, out2, sch2. rewrite !lookup_insert_eq.
  split_and!; [done..|].
  apply read_month_files_Ok in Hread1 as [-> _].
  apply read_month_files_Ok in Hread2 as [-> _].
  rewrite (dd_concat_row_count _ _ Hcat2), (dd_concat_row_count _ _ Hcat1).
  rewrite !row_count_cast.
  rewrite merged_path_all in *.
  assert (Hperm : month_files None directory
                    (<[directory +:+ "alltrips.parquet"
                       := ParquetFile out1 sch1]> fs)
                  ≡ₚ (directory +:+ "alltrips.parquet")
                     :: month_files None directory fs)
    by (by apply month_files_insert_selected).
  assert (Hold : directory +:+ "alltrips.parquet"
                 ∉ month_files None directory fs).
  { intros (f & Hf & Hin)%elem_of_month_files.
    apply (inj (String.app directory)) in Hf as <-.
    apply elem_of_listdir in Hin as (_ & _ & Hin).
    rewrite (with_sep_id _ Hsep), Hnew in Hin. by destruct Hin. }
  unfold stored_tables at 1.
  rewrite (row_count_perm _ _ (omap_Permutation _ _ _ Hperm)).
  cbn [omap list_omap]. rewrite lookup_insert_eq.
  fold (stored_tables (<[directory +:+ "alltrips.parquet"
                         := ParquetFile out1 sch1]> fs)
          (month_files None directory fs)).
  rewrite (stored_tables_ext _ fs).
  - unfold row_count at 1. cbn [fmap list_fmap sum_list sum_list_with].
    fold (row_count (stored_tables fs (month_files None directory fs))).
    unfold id, compose.
    rewrite (dd_concat_row_count _ _ Hcat1), row_count_cast. lia.
  - intros p Hp. apply lookup_insert_ne. by intros <-.
Qed.

Lemma remerge_doubles_rows_witness :
  Py.endswith "trips/" "/" = true ∧
  Demo.two_months !! merged_path None "trips/" = None ∧
  merge_monthly_trips None "trips/" Demo.two_months = Ok Demo.two_months_all ∧
  merge_monthly_trips None "trips/" Demo.two_months_all
    = Ok Demo.two_months_all_twice ∧
  ∃ out1 sch1 out2 sch2,
    Demo.two_months_all !! merged_path None "trips/"
      = Some (ParquetFile out1 sch1) ∧
    Demo.two_months_all_twice !! merged_path None "trips/"
      = Some (ParquetFile out2 sch2) ∧
    length (rows out2) = 2 * length (rows out1).
Proof.
  assert (Hsep : Py.endswith "trips/" "/" = true) by reflexivity.
  assert (Hnew : Demo.two_months !! merged_path None "trips/" = None)
    by (vm_compute; reflexivity).
  assert (Hrun1 : merge_monthly_trips None "trips/" Demo.two_months
                  = Ok Demo.two_months_all) by (vm_compute; reflexivity).
  assert (Hrun2 : merge_monthly_trips None "trips/" Demo.two_months_all
                  = Ok Demo.two_months_all_twice) by (vm_compute; reflexivity).
  split; [exact Hsep|]. split; [exact Hnew|].
  split; [exact Hrun1|]. split; [exact Hrun2|].
  exact (remerge_doubles_rows _ _ _ _ Hsep Hnew Hrun1 Hrun2).
Defined.


(** ** More about the cleaning of a csv frame *)

Section cleaning.
Implicit Types (s : string) (cols : list string) (r : list value).

Lemma replace_marker_not_null v : v ≠ VNull → replace_marker v ≠ VNull.
Proof. by destruct v. Qed.

Lemma Forall_map_named (P : value → Prop) c g cols r :
  (∀ v, P v → P (g v)) → Forall P r → Forall P (map_named c g cols r).
Proof.
  intros Hg. revert r. induction cols as [|n cols IH]; intros r Hr; [done|].
  destruct Hr as [|v r Hv Hr]; [done|]. cbn.
  constructor; [case_decide; auto|auto].
Qed.

Lemma existsb_is_null r :
  existsb is_null r = false → Forall (λ v, v ≠ VNull) r.
Proof.
  induction r as [|v r IH]; cbn; [done|].
  intros [Hv Hr]%orb_false_iff. constructor; [by intros ->|auto].
Qed.

End cleaning.


(** ** More about the converter *)

Section converter_more.
Implicit Types (fs : store) (directory_to : string) (csv_files : list string).

Lemma convert_files_unfold directory_to csv_file csv_files fs :
  convert_files directory_to (csv_file :: csv_files) fs
  = match convert_one fs csv_file with
    | Ok file =>
        convert_files directory_to csv_files
          (<[parquet_path directory_to csv_file := file]> fs)
    | Raise e => (fs, Raise e)
    end.
Proof. reflexivity. Qed.

(** A run that raises has converted the files before the failing one
    and has not gone further. *)
Lemma convert_files_Raise directory_to csv_files fs fs' e :
  convert_files directory_to csv_files fs = (fs', Raise e) →
  ∃ before csv_file after,
    csv_files = before ++ csv_file :: after ∧
    convert_files directory_to before fs = (fs', Ok tt) ∧
    convert_one fs' csv_file = Raise e.
Proof.
  revert fs. induction csv_files as [|c csv_files IH]; intros fs; [done|].
  rewrite convert_files_unfold.
  destruct (convert_one fs c) as [file|e'] eqn:Hc.
  - intros (before & c' & after & -> & Hrun & Hfail)%IH.
    exists (c :: before), c', after. split; [done|].
    by rewrite convert_files_unfold, Hc.
  - intros [= <- <-]. by exists [], c, csv_files.
Qed.

Lemma convert_one_Ok fs csv_file (file : file) :
  convert_one fs csv_file = Ok file → converted_file file.
Proof.
  unfold convert_one.
  intros (csv_df & _ & (out & Hclean & Hw)%bind_Ok)%bind_Ok.
  apply to_parquet_Ok in Hw as (sch & -> & Hnd & Hsch).
  apply column_types_Ok in Hsch as [Hfst _].
  pose proof Hclean as (_ & Hc & Hrows)%clean_csv_Ok.
  exists out, sch. split_and!; try done.
  rewrite Hrows. apply Forall_fmap, Forall_forall.
  intros r [Hr _]%list_elem_of_filter. cbn.
  apply Forall_map_named; [apply replace_marker_not_null|].
  apply existsb_is_null. by destruct (existsb is_null r).
Qed.

(** Whatever the run changes in the store is a converted file. *)
Lemma convert_files_changed_file directory_to csv_files fs fs' r p :
  convert_files directory_to csv_files fs = (fs', r) →
  fs' !! p ≠ fs !! p →
  ∃ file, fs' !! p = Some file ∧ converted_file file.
Proof.
  revert fs. induction csv_files as [|c csv_files IH]; intros fs.
  { by intros [= <- _]. }
  rewrite convert_files_unfold.
  destruct (convert_one fs c) as [file|e] eqn:Hc; [|by intros [= <- _]].
  intros Hrun Hp.
  destruct (decide (fs' !! p
                    = <[parquet_path directory_to c := file]> fs !! p))
    as [Heq|Hne]; [|by apply (IH _ Hrun)].
  destruct (decide (p = parquet_path directory_to c)) as [->|Hpc].
  - rewrite lookup_insert_eq in Heq. exists file.
    split; [done|]. by apply (convert_one_Ok fs c).
  - rewrite lookup_insert_ne in Heq by done. done.
Qed.

Lemma convert_files_frame directory_to csv_files fs fs' r p :
  convert_files directory_to csv_files fs = (fs', r) →
  (∀ c, c ∈ csv_files → p ≠ parquet_path directory_to c) →
  fs' !! p = fs !! p.
Proof.
  intros Hrun Hp. destruct (decide (fs' !! p = fs !! p)) as [|Hne]; [done|].
  destruct (convert_files_changed _ _ _ _ _ _ Hrun Hne) as (c & Hc & ->).
  by destruct (Hp c Hc).
Qed.

End converter_more.

(** X4: a run of the converter that raises stops at the first file,
    in the sorted order, whose conversion raises: the files before it
    have their parquet files in the store that is left, the failing
    file and the files after it have changed nothing. *)
Theorem convert_stops_at_first_failure (directory_from directory_to : string)
    (fs fs' : store) (e : exn) :
  convert_to_parquet directory_from directory_to fs = (fs', Raise e) →
  ∃ before csv_file after,
    Py.sorted ((λ f, directory_from +:+ f) <$> listdir fs directory_from)
    = before ++ csv_file :: after ∧
    convert_files directory_to before fs = (fs', Ok tt) ∧
    convert_one fs' csv_file = Raise e ∧
    (∀ c, c ∈ before → is_parquet fs' (parquet_path directory_to c)) ∧
    (∀ p, (∀ c, c ∈ before → p ≠ parquet_path directory_to c) →
          fs' !! p = fs !! p).
Proof.
  unfold convert_to_parquet.
  intros (before & c & after & Hfiles & Hrun & Hfail)%convert_files_Raise.
  exists before, c, after. split_and!; try done.
  - intros c' Hc'. by apply (convert_files_written _ _ _ _ _ Hrun).
  - intros p Hp. by apply (convert_files_frame _ _ _ _ _ _ Hrun).
Qed.

Lemma convert_stops_at_first_failure_witness :
  convert_to_parquet "csv/" "pq/" Demo.broken_dir
    = (Demo.broken_dir_converted, Raise KeyError) ∧
  ∃ before csv_file after,
    Py.sorted ((λ f, "csv/" +:+ f) <$> listdir Demo.broken_dir "csv/")
    = before ++ csv_file :: after ∧
    convert_files "pq/" before Demo.broken_dir
      = (Demo.broken_dir_converted, Ok tt) ∧
    convert_one Demo.broken_dir_converted csv_file = Raise KeyError ∧
    (∀ c, c ∈ before →
          is_parquet Demo.broken_dir_converted (parquet_path "pq/" c)) ∧
    (∀ p, (∀ c, c ∈ before → p ≠ parquet_path "pq/" c) →
          Demo.broken_dir_converted !! p = Demo.broken_dir !! p).
Proof.
  assert (Hrun : convert_to_parquet "csv/" "pq/" Demo.broken_dir
                 = (Demo.broken_dir_converted, Raise KeyError))
    by (vm_compute; reflexivity).
  split; [exact Hrun|].
  exact (convert_stops_at_first_failure _ _ _ _ _ Hrun).
Defined.

(** The run on [Demo.broken_dir]: January is converted, February
    raises, March is not reached. *)
Example broken_dir_listing :
  listdir Demo.broken_dir_converted "pq/" = ["2019-01.parquet"].
Proof. vm_compute. reflexivity. Qed.


(** ** Running the converter again, and the merger after it *)

Section rerun.
Implicit Types (fs : store) (directory_to : string) (csv_files : list string).

Lemma substring_prefix (n : nat) (s : string) :
  ∃ rest, s = String.substring 0 n s +:+ rest.
Proof.
  revert n. induction s as [|c s IH]; intros [|n]; cbn.
  - by exists EmptyString.
  - by exists EmptyString.
  - by exists (String c s).
  - destruct (IH n) as [rest Hrest]. exists rest.
    rewrite app_cons_str. by rewrite <-Hrest.
Qed.

Lemma has_slash_drop_last4 (f : string) :
  has_slash f = false → has_slash (Py.drop_last4 f) = false.
Proof.
  unfold Py.drop_last4.
  destruct (substring_prefix (String.length f - 4) f) as [rest Hrest].
  rewrite Hrest at 1. rewrite has_slash_app. by intros [? _]%orb_false_iff.
Qed.

(** A path is cut in one way only into a directory with its final
    separator and a plain name. *)
Lemma dir_name_inj (a b x y : string) :
  Py.endswith a "/" = true → Py.endswith b "/" = true →
  has_slash x = false → has_slash y = false →
  a +:+ x = b +:+ y → a = b ∧ x = y.
Proof.
  intros [a' ->]%endswith_spec [b' ->]%endswith_spec Hx Hy Heq.
  assert (x = y) as ->.
  { apply (f_equal (λ s, Py.last_item (Py.split_slash s))) in Heq.
    rewrite !split_slash_app, (split_slash_no_slash x Hx),
      (split_slash_no_slash y Hy) in Heq.
    unfold Py.last_item in Heq. by rewrite !last_last in Heq. }
  split; [|done]. by apply app_inj_r_str in Heq.
Qed.

(** [newfilepath] for an entry [f] of the source directory. *)
Lemma parquet_path_entry directory_from directory_to (f : string) :
  Py.endswith directory_from "/" = true → has_slash f = false →
  parquet_path directory_to (directory_from +:+ f)
  = directory_to +:+ (Py.drop_last4 f +:+ ".parquet").
Proof.
  intros Hsep Hf. unfold parquet_path, parquet_name.
  rewrite last_item_split by done. apply app_assoc_str.
Qed.

(** The loop, started from two stores that agree on the csv files,
    writes the same parquet files. *)
Lemma convert_files_agree directory_to csv_files fs fs2 fs' :
  (∀ c, c ∈ csv_files → fs !! c = fs2 !! c) →
  convert_files directory_to csv_files fs = (fs', Ok tt) →
  ∃ fs2',
    convert_files directory_to csv_files fs2 = (fs2', Ok tt) ∧
    ∀ c, c ∈ csv_files →
         fs2' !! parquet_path directory_to c = fs' !! parquet_path directory_to c.
Proof.
  revert fs fs2. induction csv_files as [|c csv_files IH];
    intros fs fs2 Hagree.
  { intros [= <-]. exists fs2. split; [done|]. by intros c ?%elem_of_nil. }
  rewrite !convert_files_unfold.
  assert (Hone : convert_one fs2 c = convert_one fs c).
  { unfold convert_one, read_csv. by rewrite (Hagree c) by left. }
  rewrite Hone. destruct (convert_one fs c) as [file|e]; [|done].
  intros Hrun.
  destruct (IH (<[parquet_path directory_to c := file]> fs)
               (<[parquet_path directory_to c := file]> fs2))
    as (fs2' & Hrun2 & Hout); [|done|].
  { intros c' Hc'.
    destruct (decide (parquet_path directory_to c = c')) as [<-|Hne].
    - by rewrite !lookup_insert_eq.
    - rewrite !lookup_insert_ne by done. apply Hagree. by right. }
  exists fs2'. split; [done|]. intros c' Hc'.
  destruct (decide (Exists (λ c0, parquet_path directory_to c'
                                  = parquet_path directory_to c0) csv_files))
    as [(c0 & Hc0 & ->)%Exists_exists|Hnot]; [by apply Hout|].
  rewrite Exists_exists in Hnot.
  assert (Hfresh : ∀ c0, c0 ∈ csv_files →
            parquet_path directory_to c' ≠ parquet_path directory_to c0)
    by (intros c0 Hc0 Heq; apply Hnot; eauto).
  rewrite (convert_files_frame _ _ _ _ _ _ Hrun2 Hfresh),
    (convert_files_frame _ _ _ _ _ _ Hrun Hfresh).
  apply elem_of_cons in Hc' as [->|Hc']; [|by destruct (Hfresh c' Hc')].
  by rewrite !lookup_insert_eq.
Qed.

(** The loop of the merger reads every path that holds a parquet file
    with a [birthyear] column. *)
Lemma read_month_files_all fs (files : list string) :
  (∀ p, p ∈ files →
        ∃ df sch, fs !! p = Some (ParquetFile df sch) ∧ "birthyear" ∈ columns df) →
  ∃ tables, read_month_files fs files = Ok tables ∧
            length tables = length files.
Proof.
  induction files as [|p files IH]; intros Hall.
  { by exists []. }
  destruct IH as (tables & Hread & Hlen).
  { intros q Hq. apply Hall. by right. }
  destruct (Hall p) as (df & sch & Hp & Hc); [left|].
  exists (cast_birthyear df :: tables). split; [|by cbn; rewrite Hlen].
  cbn [read_month_files]. unfold path_exists, read_parquet, update_column.
  rewrite Hp, bool_decide_true by eauto. cbn.
  rewrite decide_True by done. cbn. by rewrite Hread.
Qed.

End rerun.

(** X5: running the converter a second time, from the same source
    into the same destination, a directory other than the source,
    converts the same files and leaves the store as the first run left
    it. *)
Theorem convert_twice (directory_from directory_to : string)
    (fs fs' : store) :
  Py.endswith directory_from "/" = true →
  Py.endswith directory_to "/" = true →
  directory_from ≠ directory_to →
  convert_to_parquet directory_from directory_to fs = (fs', Ok tt) →
  listdir fs' directory_from ≡ₚ listdir fs directory_from ∧
  convert_to_parquet directory_from directory_to fs' = (fs', Ok tt).
Proof.
  intros Hfrom Hto Hdirs Hrun. unfold convert_to_parquet in *.
  set (csv_files := Py.sorted ((λ f, directory_from +:+ f)
                               <$> listdir fs directory_from)) in *.
  assert (Hin : ∀ c, c ∈ csv_files →
            ∃ f, c = directory_from +:+ f ∧ has_slash f = false).
  { intros c (f & -> & Hf)%elem_of_sorted%list_elem_of_fmap.
    apply elem_of_listdir in Hf as (_ & Hsl & _). eauto. }
  assert (Hkept : ∀ f, has_slash f = false →
            fs' !! (directory_from +:+ f) = fs !! (directory_from +:+ f)).
  { intros f Hf. apply (convert_files_frame _ _ _ _ _ _ Hrun).
    intros c (f' & -> & Hf')%Hin.
    rewrite parquet_path_entry by done. intros Heq.
    apply dir_name_inj in Heq as [? _]; [done..|].
    rewrite has_slash_app. by rewrite has_slash_drop_last4. }
  assert (Hlist : listdir fs' directory_from ≡ₚ listdir fs directory_from).
  { apply NoDup_Permutation; [apply NoDup_listdir..|].
    intros f. rewrite !elem_of_listdir, (with_sep_id _ Hfrom).
    split; intros (? & Hsl & ?); split_and!; try done.
    - by rewrite <-Hkept.
    - by rewrite Hkept. }
  split; [done|].
  rewrite (sorted_perm _ _ (fmap_Permutation _ _ _ Hlist)).
  fold csv_files.
  destruct (convert_files_agree directory_to csv_files fs fs' fs')
    as (fs2 & Hrun2 & Hout); [|done|].
  { intros c (f & -> & Hf)%Hin. by rewrite Hkept. }
  rewrite Hrun2. f_equal. apply map_eq. intros p.
  destruct (decide (Exists (λ c, p = parquet_path directory_to c) csv_files))
    as [(c & Hc & ->)%Exists_exists|Hnot]; [by apply Hout|].
  rewrite Exists_exists in Hnot.
  apply (convert_files_frame _ _ _ _ _ _ Hrun2).
  intros c Hc Heq. apply Hnot. eauto.
Qed.

Lemma convert_twice_witness :
  Py.endswith "data/2019_csv/" "/" = true ∧
  Py.endswith "data/2019_parquet/" "/" = true ∧
  "data/2019_csv/" ≠ "data/2019_parquet/" ∧
  convert_to_parquet "data/2019_csv/" "data/2019_parquet/" Demo.csv_dir
    = (Demo.csv_dir_converted, Ok tt) ∧
  listdir Demo.csv_dir_converted "data/2019_csv/"
    ≡ₚ listdir Demo.csv_dir "data/2019_csv/" ∧
  convert_to_parquet "data/2019_csv/" "data/2019_parquet/"
    Demo.csv_dir_converted = (Demo.csv_dir_converted, Ok tt).
Proof.
  assert (Hfrom : Py.endswith "data/2019_csv/" "/" = true) by reflexivity.
  assert (Hto : Py.endswith "data/2019_parquet/" "/" = true) by reflexivity.
  assert (Hdirs : "data/2019_csv/" ≠ "data/2019_parquet/") by discriminate.
  assert (Hrun : convert_to_parquet "data/2019_csv/" "data/2019_parquet/"
                   Demo.csv_dir = (Demo.csv_dir_converted, Ok tt))
    by (vm_compute; reflexivity).
  split; [exact Hfrom|]. split; [exact Hto|]. split; [exact Hdirs|].
  split; [exact Hrun|].
  exact (convert_twice _ _ _ _ Hfrom Hto Hdirs Hrun).
Defined.

(** X6: the merger reads what the converter wrote: after a run of the
    converter that ends without an exception into a directory that was
    empty, the loop of the merger, for any year, reads every selected
    file of that directory: none is skipped, none is refused for its
    format or for a missing [birthyear] column. *)
Theorem merger_reads_converted_files (directory_from directory_to : string)
    (fs fs' : store) (year : option Z) :
  Py.endswith directory_to "/" = true →
  listdir fs directory_to = [] →
  convert_to_parquet directory_from directory_to fs = (fs', Ok tt) →
  ∃ tables,
    read_month_files fs' (month_files year directory_to fs') = Ok tables ∧
    length tables = length (month_files year directory_to fs').
Proof.
  intros Hto Hempty Hrun. apply read_month_files_all.
  intros p (f & -> & Hf)%elem_of_month_files.
  pose proof Hf as (Hne & Hsl & Hin)%elem_of_listdir.
  rewrite (with_sep_id _ Hto) in Hin.
  assert (Hold : fs !! (directory_to +:+ f) = None).
  { destruct (fs !! (directory_to +:+ f)) as [file|] eqn:Hp; [|done].
    assert (f ∈ listdir fs directory_to) as Hlisted.
    { apply elem_of_listdir. rewrite (with_sep_id _ Hto), Hp. eauto. }
    rewrite Hempty in Hlisted. by apply elem_of_nil in Hlisted. }
  unfold convert_to_parquet in Hrun.
  destruct (convert_files_changed_file _ _ _ _ _ (directory_to +:+ f) Hrun)
    as (file & Hfile & out & sch & -> & Hc & _).
  { rewrite Hold. by destruct Hin as [? ->]. }
  by exists out, sch.
Qed.

Lemma merger_reads_converted_files_witness :
  Py.endswith "data/2019_parquet/" "/" = true ∧
  listdir Demo.csv_dir "data/2019_parquet/" = [] ∧
  convert_to_parquet "data/2019_csv/" "data/2019_parquet/" Demo.csv_dir
    = (Demo.csv_dir_converted, Ok tt) ∧
  ∃ tables,
    read_month_files Demo.csv_dir_converted
      (month_files (Some 2019%Z) "data/2019_parquet/" Demo.csv_dir_converted)
      = Ok tables ∧
    length tables
    = length (month_files (Some 2019%Z) "data/2019_parquet/"
                Demo.csv_dir_converted).
Proof.
  assert (Hto : Py.endswith "data/2019_parquet/" "/" = true) by reflexivity.
  assert (Hempty : listdir Demo.csv_dir "data/2019_parquet/" = [])
    by (vm_compute; reflexivity).
  assert (Hrun : convert_to_parquet "data/2019_csv/" "data/2019_parquet/"
                   Demo.csv_dir = (Demo.csv_dir_converted, Ok tt))
    by (vm_compute; reflexivity).
  split; [exact Hto|]. split; [exact Hempty|]. split; [exact Hrun|].
  exact (merger_reads_converted_files _ _ _ _ _ Hto Hempty Hrun).
Defined.

(** The notebook on [Demo.csv_dir]: convert, then merge 2019. *)
Example convert_then_merge :
  ∃ fs', merge_monthly_trips (Some 2019%Z) "data/2019_parquet/"
           Demo.csv_dir_converted = Ok fs' ∧
         fs' !! "data/2019_parquet/2019.parquet" =
         Some (ParquetFile
                 (mkDataFrame ["tripduration"; "endstationid"; "birthyear"]
                    [[VInt 320; VInt 3160; VStr "1985"];
                     [VInt 100; VInt 519; VStr "1990"];
                     [VInt 75; VInt 497; VStr "0"];
                     [VInt 610; VInt 3255; VStr "1969"]])
                 [("tripduration", pa_int64); ("endstationid", pa_int64);
                  ("birthyear", pa_string)]).
Proof.
  eexists. split; [vm_compute; reflexivity|]. vm_compute. reflexivity.
Qed.
